(** * gli-turf-buffer: the GeoJSON buffer adapter of [dist/js/index.js]

    The module reprojects GeoJSON into a local azimuthal equidistant frame,
    hands the geometry to the JSTS buffer operation and reprojects the
    outcome.  The functions of [index.js] are embedded below; the libraries
    it requires ([@turf/center], [turf-jsts], [d3-geo], [@turf/helpers]) are
    parameters of the development.  The iteration helpers of [@turf/meta]
    and the two constructors of [@turf/helpers] are written out after their
    documented behaviour.

    Numbers are IEEE doubles ([PrimFloat.float]); coordinate arrays are
    arbitrarily nested arrays of numbers.

    The first embedding takes GeoJSON by value.  It serves for the
    validation of the arguments and for the buffering of a geometry with
    coordinates: a Feature always carries a geometry object, the members of
    a GeometryCollection are geometries with coordinates, and the libraries
    are assumed to return normally.

    A second embedding, in module [Store], runs the same functions over a
    store of mutable objects and arrays.  It makes none of these
    restrictions: any value can be given, a geometry can be [null],
    collections nest, and a library call returns or throws.  What a call
    does to the objects it is given, and what it does on collections, is
    stated there. *)

From Stdlib Require Import Floats ZArith.
From stdpp Require Import gmap strings list pretty.

Set Warnings "-register-all".
Local Open Scope string_scope.
Local Open Scope list_scope.

(** ** JavaScript values read from the [options] object and [radius] *)

Inductive value :=
  | VUndefined
  | VNull
  | VBool (b : bool)
  | VNumber (f : float)
  | VString (s : string)
  | VObject
  | VFunction.

Inductive jstype :=
  | TUndefined | TObject | TBoolean | TNumber | TString | TFunction.

Definition typeof (v : value) : jstype :=
  match v with
  | VUndefined => TUndefined
  | VNull => TObject
  | VBool _ => TBoolean
  | VNumber _ => TNumber
  | VString _ => TString
  | VObject => TObject
  | VFunction => TFunction
  end.

(** [ToBoolean]: [undefined], [null], [false], [0], [-0], [NaN] and the empty
    string are falsy. *)
Definition truthy (v : value) : bool :=
  match v with
  | VUndefined | VNull => false
  | VBool b => b
  | VNumber f => negb (PrimFloat.eqb f 0 || PrimFloat.is_nan f)
  | VString s => negb (String.eqb s "")
  | VObject | VFunction => true
  end.

(** [a || b] *)
Definition js_or (a b : value) : value := if truthy a then a else b.

(** ** Exceptions and results *)

Inductive exn :=
  | Error (message : string)
  | TypeError.

Inductive result (A : Type) :=
  | Ok (a : A)
  | Throw (e : exn).
Arguments Ok {A} a.
Arguments Throw {A} e.

Definition bind {A B} (m : result A) (k : A -> result B) : result B :=
  match m with
  | Ok a => k a
  | Throw e => Throw e
  end.

Declare Scope js_scope.
Delimit Scope js_scope with js.
Notation "x <- m ;; k" := (bind m (fun x => k))
  (at level 100, m at next level, right associativity) : js_scope.
Local Open Scope js_scope.

(** ** GeoJSON *)

(** Coordinates: a number, or an array of coordinates.  A position is
    [Arr [Num x; Num y]]. *)
Inductive Coords :=
  | Num (x : float)
  | Arr (elements : list Coords).

Inductive geometryType :=
  | Point | MultiPoint | LineString | MultiLineString | Polygon | MultiPolygon.

(** A geometry object with [coordinates]: [{type, coordinates}]. *)
Record simpleGeometry := SimpleGeometry {
  sg_type : geometryType;
  sg_coordinates : Coords
}.

Inductive Geometry :=
  | Geom (type : geometryType) (coordinates : Coords)
  | GeometryCollection (geometries : list simpleGeometry).

Abbreviation props := (gmap string value).

(** [properties] is an object or [null]. *)
Record Feature := mkFeature {
  f_geometry : Geometry;
  f_properties : option props
}.

Inductive GeoJSON :=
  | GGeometry (g : Geometry)
  | GFeature (f : Feature)
  | GFeatureCollection (features : list Feature).

(** What [bufferFeature] is called with: a geometry, a Feature, or (from the
    GeometryCollection branch of [buffer]) the function [helpers.feature]. *)
Inductive bufferArg :=
  | ArgGeometry (g : Geometry)
  | ArgFeature (f : Feature)
  | ArgHelpersFeature.

(** What the module returns: [helpers.feature(geom, properties)] or
    [helpers.featureCollection(features)]. *)
Inductive Output :=
  | OutFeature (geom : simpleGeometry) (properties : props)
  | OutFeatureCollection (features : list Output).

Definition helpers_feature (geom : simpleGeometry) (properties : props) : Output :=
  OutFeature geom properties.

Definition helpers_featureCollection (features : list Output) : Output :=
  OutFeatureCollection features.

(** [meta.featureEach] on a returned value: the callback sees a Feature
    itself, or the members of a FeatureCollection in order. *)
Definition featureEach_output (o : Output) : list Output :=
  match o with
  | OutFeature _ _ => [o]
  | OutFeatureCollection fs => fs
  end.

(** [meta.geomEach] on a GeometryCollection (bare or inside a Feature): the
    callback sees the member geometries in order, one level deep. *)
Definition geomEach (geometries : list simpleGeometry) : list simpleGeometry :=
  geometries.

(** ** The [options] argument *)

Record options := Options {
  o_units : value;
  o_steps : value;
  o_endCapStyle : value;
  o_joinStyle : value;
  o_mitreLimit : value
}.

(** The object literal [{}]: every property reads [undefined]. *)
Definition empty_options : options :=
  Options VUndefined VUndefined VUndefined VUndefined VUndefined.

(** The third argument of [buffer]: an options object, or any other value
    (absent is [OptOther VUndefined]). *)
Inductive optionsArg :=
  | OptObject (o : options)
  | OptOther (v : value).

Definition options_truthy (a : optionsArg) : bool :=
  match a with
  | OptObject _ => true
  | OptOther v => truthy v
  end.

Definition options_typeof (a : optionsArg) : jstype :=
  match a with
  | OptObject _ => TObject
  | OptOther v => typeof v
  end.

(** Property reads [options.p]: a value that is not an options object has
    none of the five properties. *)
Definition options_fields (a : optionsArg) : options :=
  match a with
  | OptObject o => o
  | OptOther _ => empty_options
  end.

(** ** Coordinate helpers of [index.js] *)

(** [coords[0]]: the first element of an array; [undefined] ([None]) for an
    empty array and for a number. *)
Definition first (c : Coords) : option Coords :=
  match c with
  | Arr (x :: _) => Some x
  | _ => None
  end.

(** [typeof coords[0]] *)
Definition typeof_first (c : Coords) : jstype :=
  match first c with
  | Some (Arr _) => TObject
  | Some (Num _) => TNumber
  | None => TUndefined
  end.

(** The global [isNaN] on [coords[0]] when it is not an array: a missing
    element ([undefined]) converts to [NaN]. *)
Definition js_isNaN (v : option float) : bool :=
  match v with
  | Some x => PrimFloat.is_nan x
  | None => true
  end.

Fixpoint coordsIsNaN (coords : Coords) : bool :=
  match coords with
  | Arr (c0 :: _) =>
      match c0 with
      | Arr _ => coordsIsNaN c0
      | Num x => js_isNaN (Some x)
      end
  | _ => js_isNaN None
  end.

(** A d3-geo projection: the function itself and its [invert]. *)
Record GeoProjection := {
  forward : Coords -> Coords;
  invert : Coords -> Coords
}.

Fixpoint projectCoords (coords : Coords) (proj : GeoProjection) : Coords :=
  match coords with
  | Arr ((Arr _ :: _) as elements) =>
      Arr (List.map (fun coord => projectCoords coord proj) elements)
  | _ => forward proj coords
  end.

Fixpoint unprojectCoords (coords : Coords) (proj : GeoProjection) : Coords :=
  match coords with
  | Arr ((Arr _ :: _) as elements) =>
      Arr (List.map (fun coord => unprojectCoords coord proj) elements)
  | _ => invert proj coords
  end.

(** ** Loops over callbacks *)

Section ForEach.
Context {A S : Type}.
Variable callback : S -> A -> result S.

(** Calls [callback] on the elements in order, threading the state the
    callback closes over (the [results] array); an exception thrown by a
    call ends the loop. *)
Fixpoint forEach (xs : list A) (s : S) : result S :=
  match xs with
  | [] => Ok s
  | x :: xs' => s' <- callback s x ;; forEach xs' s'
  end.
End ForEach.

(** [if (buffered) results.push(buffered)]: [undefined] is not pushed, an
    object is. *)
Definition push_if_truthy (results : list Output) (buffered : option Output) : list Output :=
  match buffered with
  | Some b => results ++ [b]
  | None => results
  end.

(** ** The libraries [index.js] requires *)

(** The parameters handed to the JSTS buffer operation through
    [setQuadrantSegments], [setEndCapStyle], [setJoinStyle] and
    [setMitreLimit]. *)
Record BufferParameters := {
  quadrantSegments : float;
  bp_endCapStyle : Z;
  bp_joinStyle : Z;
  bp_mitreLimit : float
}.

Record Libraries := {
  (** [center(geojson).geometry.coordinates], the pair [[x, y]] *)
  center : Geometry -> float * float;
  (** [d3Geo.geoAzimuthalEquidistant().rotate(rotation).scale(k)] *)
  geoAzimuthalEquidistant : float * float -> float -> GeoProjection;
  earthRadius : float;
  lengthToRadians : value -> value -> float;
  radiansToLength : float -> string -> float;
  (** [GeoJSONReader.read], [BufferOp] with its parameters,
      [getResultGeometry(distance)] and [GeoJSONWriter.write] *)
  jsts_buffer : simpleGeometry -> BufferParameters -> float -> simpleGeometry
}.

Section Buffer.
Variable L : Libraries.

Definition defineProjection (geojson : Geometry) : GeoProjection :=
  let coords := center L geojson in
  let rotation := (PrimFloat.opp (fst coords), PrimFloat.opp (snd coords)) in
  geoAzimuthalEquidistant L rotation (earthRadius L).

Section BufferFeature.
Variables (radius units : value) (steps : float)
          (endCapStyle joinStyle : Z) (mitreLimit : float).

(** The body of [bufferFeature] below the GeometryCollection branch. *)
Definition bufferSimple (type : geometryType) (coordinates : Coords)
    (properties : props) : option Output :=
  let geometry := Geom type coordinates in
  let projection := defineProjection geometry in
  let projected :=
    SimpleGeometry type (projectCoords coordinates projection) in
  let distance :=
    radiansToLength L (lengthToRadians L radius units) "meters" in
  let buffered :=
    jsts_buffer L projected
      {| quadrantSegments := steps; bp_endCapStyle := endCapStyle;
         bp_joinStyle := joinStyle; bp_mitreLimit := mitreLimit |}
      distance in
  if coordsIsNaN (sg_coordinates buffered) then None
  else
    let result :=
      SimpleGeometry (sg_type buffered)
        (unprojectCoords (sg_coordinates buffered) projection) in
    Some (helpers_feature result properties).

(** [bufferFeature].  Given the function [helpers.feature], the reads of
    [properties] and [type] give [undefined], [geometry] is the function
    itself, and once [center] has returned
    [projectCoords(geometry.coordinates, projection)] throws on reading
    [coords[0]] of [undefined]
    ([StoreFrame.bufferFeature_HelpersFeature] derives it over the store).
    In the GeometryCollection branch the recursive call
    [bufferFeature(geometry, ...)] is on a member geometry, which has
    coordinates and no [properties]: it is [bufferSimple] with empty
    properties. *)
Definition bufferFeature (geojson : bufferArg) : result (option Output) :=
  match geojson with
  | ArgHelpersFeature => Throw TypeError
  | ArgGeometry geometry | ArgFeature {| f_geometry := geometry |} =>
      let properties :=
        match geojson with
        | ArgFeature {| f_properties := Some properties |} => properties
        | _ => ∅
        end in
      match geometry with
      | GeometryCollection geometries =>
          results <-
            forEach (fun results geometry =>
                       let buffered :=
                         bufferSimple (sg_type geometry)
                           (sg_coordinates geometry) ∅ in
                       Ok (push_if_truthy results buffered))
                    (geomEach geometries) [] ;;
          Ok (Some (helpers_featureCollection results))
      | Geom type coordinates =>
          Ok (bufferSimple type coordinates properties)
      end
  end.
End BufferFeature.

Definition endCapStyle_error : exn :=
  Error "endCapStyle must be 'flat', 'round' or 'square'".

Definition joinStyle_error : exn :=
  Error "joinStyle must be 'round', 'mitre' or 'bevel'".

(** [switch] compares with [===]: only a string can match a case. *)
Definition switch_endCapStyle (endCapStyle : value) : result Z :=
  match endCapStyle with
  | VString s =>
      if String.eqb s "round" then Ok 1%Z
      else if String.eqb s "flat" then Ok 2%Z
      else if String.eqb s "square" then Ok 3%Z
      else Throw endCapStyle_error
  | _ => Throw endCapStyle_error
  end.

Definition switch_joinStyle (joinStyle : value) : result Z :=
  match joinStyle with
  | VString s =>
      if String.eqb s "round" then Ok 1%Z
      else if String.eqb s "mitre" then Ok 2%Z
      else if String.eqb s "bevel" then Ok 3%Z
      else Throw joinStyle_error
  | _ => Throw joinStyle_error
  end.

Definition buffer (geojson : option GeoJSON) (radius : value)
    (options : optionsArg) : result (option Output) :=
  let options :=
    if options_truthy options then options else OptObject empty_options in
  let units := js_or (o_units (options_fields options)) (VString "kilometers") in
  let steps := js_or (o_steps (options_fields options)) (VNumber 8) in
  let endCapStyle :=
    js_or (o_endCapStyle (options_fields options)) (VString "round") in
  let joinStyle :=
    js_or (o_joinStyle (options_fields options)) (VString "round") in
  let mitreLimit := js_or (o_mitreLimit (options_fields options)) (VNumber 5.0) in
  match geojson with
  | None => Throw (Error "geojson is required")
  | Some geojson =>
  match options_typeof options with
  | TObject =>
  match steps with
  | VNumber steps =>
    endCapStyle <- switch_endCapStyle endCapStyle ;;
    joinStyle <- switch_joinStyle joinStyle ;;
    match mitreLimit with
    | VNumber mitreLimit =>
      match radius with
      | VUndefined => Throw (Error "radius is required")
      | _ =>
        if PrimFloat.leb steps 0 then
          Throw (Error "steps must be greater than 0")
        else
          match geojson with
          | GGeometry (GeometryCollection geometries) =>
              results <-
                forEach (fun results geometry =>
                           buffered <-
                             bufferFeature radius units steps endCapStyle
                               joinStyle mitreLimit ArgHelpersFeature ;;
                           Ok (push_if_truthy results buffered))
                        (geomEach geometries) [] ;;
              Ok (Some (helpers_featureCollection results))
          | GFeatureCollection features =>
              results <-
                forEach (fun results feature =>
                           multiBuffered <-
                             bufferFeature radius units steps endCapStyle
                               joinStyle mitreLimit (ArgFeature feature) ;;
                           match multiBuffered with
                           | Some multiBuffered =>
                               forEach (fun results buffered =>
                                          Ok (push_if_truthy results (Some buffered)))
                                       (featureEach_output multiBuffered) results
                           | None => Ok results
                           end)
                        features [] ;;
              Ok (Some (helpers_featureCollection results))
          | GGeometry g =>
              bufferFeature radius units steps endCapStyle joinStyle
                mitreLimit (ArgGeometry g)
          | GFeature f =>
              bufferFeature radius units steps endCapStyle joinStyle
                mitreLimit (ArgFeature f)
          end
      end
    | _ => Throw (Error "mitreLimit must be a number")
    end
  | _ => Throw (Error "steps must be a number")
  end
  | _ => Throw (Error "options must be an object")
  end
  end.
End Buffer.

(** ** The two halves of [buffer]

    Lines 41-84 of [index.js] read and validate the arguments; lines 86-121
    dispatch on [geojson.type].  [validate] and [dispatch] name the two
    halves; [buffer_validate_dispatch] below shows that [buffer] is their
    composition. *)

Record Parameters := {
  p_units : value;
  p_steps : float;
  p_endCapStyle : Z;
  p_joinStyle : Z;
  p_mitreLimit : float
}.

(** [options = options || {}] followed by the property reads. *)
Definition effective_options (options : optionsArg) : optionsArg :=
  if options_truthy options then options else OptObject empty_options.

Definition validate (geojson : option GeoJSON) (radius : value)
    (options : optionsArg) : result Parameters :=
  let options := effective_options options in
  let o := options_fields options in
  match geojson with
  | None => Throw (Error "geojson is required")
  | Some _ =>
  match options_typeof options with
  | TObject =>
  match js_or (o_steps o) (VNumber 8) with
  | VNumber steps =>
    endCapStyle <- switch_endCapStyle (js_or (o_endCapStyle o) (VString "round")) ;;
    joinStyle <- switch_joinStyle (js_or (o_joinStyle o) (VString "round")) ;;
    match js_or (o_mitreLimit o) (VNumber 5.0) with
    | VNumber mitreLimit =>
      match radius with
      | VUndefined => Throw (Error "radius is required")
      | _ =>
        if PrimFloat.leb steps 0 then
          Throw (Error "steps must be greater than 0")
        else
          Ok {| p_units := js_or (o_units o) (VString "kilometers");
                p_steps := steps; p_endCapStyle := endCapStyle;
                p_joinStyle := joinStyle; p_mitreLimit := mitreLimit |}
      end
    | _ => Throw (Error "mitreLimit must be a number")
    end
  | _ => Throw (Error "steps must be a number")
  end
  | _ => Throw (Error "options must be an object")
  end
  end.

Definition bufferFeature_with (L : Libraries) (radius : value)
    (p : Parameters) : bufferArg -> result (option Output) :=
  bufferFeature L radius (p_units p) (p_steps p) (p_endCapStyle p)
    (p_joinStyle p) (p_mitreLimit p).

Definition dispatch (L : Libraries) (radius : value) (p : Parameters)
    (geojson : GeoJSON) : result (option Output) :=
  match geojson with
  | GGeometry (GeometryCollection geometries) =>
      results <-
        forEach (fun results geometry =>
                   buffered <- bufferFeature_with L radius p ArgHelpersFeature ;;
                   Ok (push_if_truthy results buffered))
                (geomEach geometries) [] ;;
      Ok (Some (helpers_featureCollection results))
  | GFeatureCollection features =>
      results <-
        forEach (fun results feature =>
                   multiBuffered <- bufferFeature_with L radius p (ArgFeature feature) ;;
                   match multiBuffered with
                   | Some multiBuffered =>
                       forEach (fun results buffered =>
                                  Ok (push_if_truthy results (Some buffered)))
                               (featureEach_output multiBuffered) results
                   | None => Ok results
                   end)
                features [] ;;
      Ok (Some (helpers_featureCollection results))
  | GGeometry g => bufferFeature_with L radius p (ArgGeometry g)
  | GFeature f => bufferFeature_with L radius p (ArgFeature f)
  end.

(** The features one member of a FeatureCollection contributes: those of
    the value [bufferFeature] returned for it, none when it returned
    [undefined]. *)
Definition members (r : result (option Output)) : list Output :=
  match r with
  | Ok (Some o) => featureEach_output o
  | _ => []
  end.

(** ** Stand-ins for the libraries, used to run the embedding *)

(** A projection that shifts a position by the rotation; anything that is
    not a position maps to [[NaN, NaN]], as d3 does. *)
Definition shift_projection (rotation : float * float) (k : float) : GeoProjection :=
  {| forward := fun c =>
       match c with
       | Arr [Num x; Num y] =>
           Arr [Num (PrimFloat.add x (fst rotation)); Num (PrimFloat.add y (snd rotation))]
       | _ => Arr [Num nan; Num nan]
       end;
     invert := fun c =>
       match c with
       | Arr [Num x; Num y] =>
           Arr [Num (PrimFloat.sub x (fst rotation)); Num (PrimFloat.sub y (snd rotation))]
       | _ => Arr [Num nan; Num nan]
       end |}.

(** A buffer operation that answers the empty polygon for a non-positive
    distance or an input without a first number, and otherwise a polygon
    whose ring records the input's coordinates, the distance and the
    parameters it was given. *)
Definition ring_buffer (g : simpleGeometry) (bp : BufferParameters)
    (distance : float) : simpleGeometry :=
  if coordsIsNaN (sg_coordinates g) || PrimFloat.leb distance 0 then
    SimpleGeometry Polygon (Arr [])
  else
    SimpleGeometry Polygon
      (Arr [Arr [Arr [Num distance; Num (quadrantSegments bp)];
                 Arr [Num (bp_mitreLimit bp); Num nan];
                 sg_coordinates g]]).

Definition test_libraries : Libraries :=
  {| center := fun g =>
       match g with
       | Geom _ (Arr [Num x; Num y]) => (x, y)
       | _ => (0%float, 0%float)
       end;
     geoAzimuthalEquidistant := shift_projection;
     earthRadius := 0x1.84db033333333p+22%float;
     lengthToRadians := fun radius _ =>
       match radius with VNumber r => r | _ => nan end;
     radiansToLength := fun r _ => r;
     jsts_buffer := ring_buffer |}.

Definition point (x y : float) : Geometry := Geom Point (Arr [Num x; Num y]).

(** ** Notions used to state the properties *)

Definition default_parameters : Parameters :=
  {| p_units := VString "kilometers"; p_steps := 8; p_endCapStyle := 1;
     p_joinStyle := 1; p_mitreLimit := 5 |}.

(** *** Cap and join styles *)

Definition with_steps (o : options) (v : value) : options :=
  Options (o_units o) v (o_endCapStyle o) (o_joinStyle o) (o_mitreLimit o).
Definition with_endCapStyle (o : options) (v : value) : options :=
  Options (o_units o) (o_steps o) v (o_joinStyle o) (o_mitreLimit o).
Definition with_joinStyle (o : options) (v : value) : options :=
  Options (o_units o) (o_steps o) (o_endCapStyle o) v (o_mitreLimit o).
Definition with_mitreLimit (o : options) (v : value) : options :=
  Options (o_units o) (o_steps o) (o_endCapStyle o) (o_joinStyle o) v.

(** Membership in {round, flat, square} and in {round, mitre, bevel}. *)
Definition valid_endCapStyle (v : value) : bool :=
  match v with
  | VString s => String.eqb s "round" || String.eqb s "flat" || String.eqb s "square"
  | _ => false
  end.

Definition valid_joinStyle (v : value) : bool :=
  match v with
  | VString s => String.eqb s "round" || String.eqb s "mitre" || String.eqb s "bevel"
  | _ => false
  end.

Definition style_error (e : exn) : Prop :=
  e = endCapStyle_error \/ e = joinStyle_error.

(** *** Numeric options *)

Definition with_p_mitreLimit (p : Parameters) (m : float) : Parameters :=
  {| p_units := p_units p; p_steps := p_steps p;
     p_endCapStyle := p_endCapStyle p; p_joinStyle := p_joinStyle p;
     p_mitreLimit := m |}.

Definition steps_error : exn := Error "steps must be greater than 0".

(** *** Detection of empty results *)

(** The first coordinate value reached by descending first elements;
    [None] when an empty array (or a number in place of an array) is
    reached first, where JavaScript reads [undefined]. *)
Fixpoint first_leaf (c : Coords) : option float :=
  match c with
  | Arr (c0 :: _) =>
      match c0 with
      | Arr _ => first_leaf c0
      | Num x => Some x
      end
  | _ => None
  end.

(** What JSTS hands back to [bufferFeature] for a geometry with
    coordinates: the [buffered] of line 167. *)
Definition buffered_geometry (L : Libraries) (radius units : value)
    (steps : float) (endCapStyle joinStyle : Z) (mitreLimit : float)
    (type : geometryType) (coordinates : Coords) : simpleGeometry :=
  let projection := defineProjection L (Geom type coordinates) in
  jsts_buffer L (SimpleGeometry type (projectCoords coordinates projection))
    {| quadrantSegments := steps; bp_endCapStyle := endCapStyle;
       bp_joinStyle := joinStyle; bp_mitreLimit := mitreLimit |}
    (radiansToLength L (lengthToRadians L radius units) "meters").

(** *** Properties *)


(** *** Projection of nested coordinates *)

(** The nesting structure of a coordinate array: an array whose first
    element is an array is a node with one child per element; anything else
    is a leaf (a position).  It fixes the depth and the length of every
    array above the leaves. *)
Inductive Shape :=
  | Leaf
  | Node (children : list Shape).

Fixpoint shape (c : Coords) : Shape :=
  match c with
  | Arr ((Arr _ :: _) as elements) => Node (List.map shape elements)
  | _ => Leaf
  end.

(** The leaves, left to right. *)
Fixpoint leaves (c : Coords) : list Coords :=
  match c with
  | Arr ((Arr _ :: _) as elements) => flat_map leaves elements
  | _ => [c]
  end.

(** An array that is a leaf, as a projection returns: [[x, y]]. *)
Definition is_position (c : Coords) : bool :=
  match c with
  | Arr (Arr _ :: _) => false
  | Arr _ => true
  | Num _ => false
  end.

(** The projection with [forward] and [invert] exchanged. *)
Definition inverse_projection (proj : GeoProjection) : GeoProjection :=
  {| forward := invert proj; invert := forward proj |}.

(** *** Notions for the further properties *)

Definition radius_error : exn := Error "radius is required".
Definition options_error : exn := Error "options must be an object".
Definition steps_type_error : exn := Error "steps must be a number".

(** The messages of the errors [buffer] creates itself. *)
Definition validation_messages : list string :=
  ["geojson is required"; "options must be an object"; "steps must be a number";
   "endCapStyle must be 'flat', 'round' or 'square'";
   "joinStyle must be 'round', 'mitre' or 'bevel'";
   "mitreLimit must be a number"; "radius is required";
   "steps must be greater than 0"].

Definition is_number (v : value) : bool :=
  match v with
  | VNumber _ => true
  | _ => false
  end.

Definition is_undefined (v : value) : bool :=
  match v with
  | VUndefined => true
  | _ => false
  end.

Definition mitreLimit_error : exn := Error "mitreLimit must be a number".

#[global] Instance exn_eq_dec : EqDecision exn.
Proof. solve_decision. Defined.

(** The checks of lines 52-84 in the order they are made, each with the
    error it throws; [None] when all pass. *)
Definition first_error (radius : value) (options : optionsArg) : option exn :=
  let o := options_fields (effective_options options) in
  match options_typeof (effective_options options) with
  | TObject =>
      match js_or (o_steps o) (VNumber 8) with
      | VNumber steps =>
          if negb (valid_endCapStyle (js_or (o_endCapStyle o) (VString "round")))
          then Some endCapStyle_error
          else if negb (valid_joinStyle (js_or (o_joinStyle o) (VString "round")))
          then Some joinStyle_error
          else if negb (is_number (js_or (o_mitreLimit o) (VNumber 5)))
          then Some mitreLimit_error
          else if is_undefined radius then Some radius_error
          else if PrimFloat.leb steps 0 then Some steps_error
          else None
      | _ => Some steps_type_error
      end
  | _ => Some options_error
  end.

(** * The same functions over an object store

    GeoJSON objects, arrays and the options object are mutable JavaScript
    objects that [buffer] receives by reference.  To state what a call does
    to them, the functions are embedded a second time over an explicit store
    of objects: property reads go through the store, object and array
    literals allocate, and [results.push] updates its array in place.  The
    libraries read the store and hand back plain data, which the embedding
    allocates; recursion over stored coordinates is bounded by fuel. *)
Module Store.

Definition loc := nat.

Inductive val :=
  | Undefined
  | Null
  | Bool (b : bool)
  | Number (f : float)
  | String (s : string)
  | Ref (l : loc)
  (** the function [helpers.feature] *)
  | HelpersFeature.

Inductive object :=
  | Obj (fields : gmap string val)
  | Array (elements : list val).

Abbreviation store := (gmap loc object).

Inductive outcome (A : Type) :=
  | Return (a : A)
  | Raise (e : exn)
  | OutOfFuel.
Arguments Return {A} a.
Arguments Raise {A} e.
Arguments OutOfFuel {A}.

(** Computations over the store. *)
Definition M (A : Type) : Type := store -> outcome A * store.

Definition ret {A} (a : A) : M A := fun σ => (Return a, σ).
Definition raise {A} (e : exn) : M A := fun σ => (Raise e, σ).
Definition out_of_fuel {A} : M A := fun σ => (OutOfFuel, σ).

Definition bind {A B} (m : M A) (k : A -> M B) : M B :=
  fun σ =>
    match m σ with
    | (Return a, σ') => k a σ'
    | (Raise e, σ') => (Raise e, σ')
    | (OutOfFuel, σ') => (OutOfFuel, σ')
    end.

Declare Scope store_scope.
Delimit Scope store_scope with store.
Notation "x <- m ;; k" := (bind m (fun x => k))
  (at level 100, m at next level, right associativity) : store_scope.
Local Open Scope store_scope.

(** A pure function of the store. *)
Definition read {A} (f : store -> A) : M A := fun σ => (Return (f σ), σ).

(** An object or array literal: a fresh location. *)
Definition alloc (o : object) : M val :=
  fun σ => let l := fresh (dom σ) in (Return (Ref l), <[l := o]> σ).

(** [array.push(v)] *)
Definition push (array v : val) : M unit :=
  fun σ =>
    match array with
    | Ref l =>
        match σ !! l with
        | Some (Array elements) => (Return tt, <[l := Array (elements ++ [v])]> σ)
        | _ => (Raise TypeError, σ)
        end
    | _ => (Raise TypeError, σ)
    end.

Definition typeof (v : val) : jstype :=
  match v with
  | Undefined => TUndefined
  | Null => TObject
  | Bool _ => TBoolean
  | Number _ => TNumber
  | String _ => TString
  | Ref _ => TObject
  | HelpersFeature => TFunction
  end.

Definition truthy (v : val) : bool :=
  match v with
  | Undefined | Null => false
  | Bool b => b
  | Number f => negb (PrimFloat.eqb f 0 || PrimFloat.is_nan f)
  | String s => negb (String.eqb s "")
  | Ref _ | HelpersFeature => true
  end.

Definition js_or (a b : val) : val := if truthy a then a else b.

(** [v === "s"] *)
Definition is_string (v : val) (s : string) : bool :=
  match v with
  | String s' => String.eqb s' s
  | _ => false
  end.

(** [v.name], for the property names [index.js] reads: reading from
    [undefined] or [null] is a TypeError, a primitive or a function has
    none of them, an array has none but its elements. *)
Definition get (v : val) (name : string) : M val :=
  fun σ =>
    match v with
    | Undefined | Null => (Raise TypeError, σ)
    | Ref l =>
        match σ !! l with
        | Some (Obj fields) => (Return (default Undefined (fields !! name)), σ)
        | _ => (Return Undefined, σ)
        end
    | _ => (Return Undefined, σ)
    end.

(** [v[i]] *)
Definition index (v : val) (i : nat) : M val :=
  fun σ =>
    match v with
    | Undefined | Null => (Raise TypeError, σ)
    | Ref l =>
        match σ !! l with
        | Some (Array elements) => (Return (default Undefined (elements !! i)), σ)
        | Some (Obj fields) => (Return (default Undefined (fields !! pretty i)), σ)
        | None => (Return Undefined, σ)
        end
    | String s =>
        (Return (match String.get i s with
                 | Some c => String (String.String c EmptyString)
                 | None => Undefined
                 end), σ)
    | _ => (Return Undefined, σ)
    end.

(** [Array.isArray(v)] *)
Definition isArray (v : val) : M bool :=
  read (fun σ =>
          match v with
          | Ref l => match σ !! l with Some (Array _) => true | _ => false end
          | _ => false
          end).

(** [v.length] as a loop bound: the number of elements of an array; an
    object that is not an array is taken to have no [length]. *)
Definition length_of (v : val) : M nat :=
  fun σ =>
    match v with
    | Undefined | Null => (Raise TypeError, σ)
    | Ref l =>
        match σ !! l with
        | Some (Array elements) => (Return (length elements), σ)
        | _ => (Return 0, σ)
        end
    | String s => (Return (String.length s), σ)
    | _ => (Return 0, σ)
    end.

(** [for (i = from; i < from + count; i++) body(i)] *)
Fixpoint for_range (from count : nat) (body : nat -> M unit) : M unit :=
  match count with
  | 0 => ret tt
  | S count' => _ <- body from ;; for_range (S from) count' body
  end.

(** [for (i = 0; i < array.length; i++) callback(array[i])] *)
Definition for_elements (array : val) (callback : val -> M unit) : M unit :=
  n <- length_of array ;;
  for_range 0 n (fun i => x <- index array i ;; callback x).

(** [array.map(callback)]: a new array; calling [map] on anything but an
    array is a TypeError. *)
Fixpoint map_range (array : val) (from count : nat) (callback : val -> M val)
    (mapped : list val) : M val :=
  match count with
  | 0 => alloc (Array mapped)
  | S count' =>
      x <- index array from ;;
      y <- callback x ;;
      map_range array (S from) count' callback (mapped ++ [y])
  end.

Definition array_map (array : val) (callback : val -> M val) : M val :=
  is_array <- isArray array ;;
  if is_array : bool then
    n <- length_of array ;;
    map_range array 0 n callback []
  else raise TypeError.

(** ** The libraries, over the store *)

(** A d3-geo projection: the function and its [invert], from the elements
    of a point to the elements of the point returned. *)
Record GeoProjection := {
  forward : list val -> list val;
  invert : list val -> list val
}.

(** Over the store the libraries are not assumed to return: a call reads
    the store and returns a value or throws ([lengthToRadians] on a unit it
    does not know, [center] and the JSTS reader on what is no geometry). *)
Record Libraries := {
  (** [center(geojson).geometry.coordinates] *)
  center : store -> val -> result (float * float);
  geoAzimuthalEquidistant : float * float -> float -> GeoProjection;
  earthRadius : float;
  lengthToRadians : val -> val -> result float;
  radiansToLength : float -> string -> result float;
  (** [new GeoJSONReader().read(projected)] *)
  reader_read : store -> val -> result unit;
  (** the GeoJSON that [GeoJSONWriter.write] builds for the buffer of what
      the reader read at [projected] *)
  jsts_buffer : store -> val -> BufferParameters -> float -> result simpleGeometry;
  (** [Number(v)] for a string and for an object *)
  string_to_number : string -> float;
  object_to_number : store -> loc -> float
}.

(** A call into a library. *)
Definition call {A} (f : store -> result A) : M A :=
  fun σ =>
    match f σ with
    | Ok a => (Return a, σ)
    | Throw e => (Raise e, σ)
    end.

Definition type_name (t : geometryType) : string :=
  match t with
  | Point => "Point"
  | MultiPoint => "MultiPoint"
  | LineString => "LineString"
  | MultiLineString => "MultiLineString"
  | Polygon => "Polygon"
  | MultiPolygon => "MultiPolygon"
  end.

(** The arrays of a coordinate value written by a library, allocated
    innermost first. *)
Fixpoint alloc_coords (c : Coords) : M val :=
  match c with
  | Num x => ret (Number x)
  | Arr elements =>
      vs <- (fix alloc_all (cs : list Coords) : M (list val) :=
               match cs with
               | [] => ret []
               | c :: cs' =>
                   v <- alloc_coords c ;;
                   vs <- alloc_all cs' ;;
                   ret (v :: vs)
               end) elements ;;
      alloc (Array vs)
  end.

Definition alloc_geometry (g : simpleGeometry) : M val :=
  coordinates <- alloc_coords (sg_coordinates g) ;;
  alloc (Obj {[ "type" := String (type_name (sg_type g));
                "coordinates" := coordinates ]}).

(** [helpers.feature(geom, properties)] *)
Definition helpers_feature (geom properties : val) : M val :=
  properties <- (if truthy properties then ret properties else alloc (Obj ∅)) ;;
  alloc (Obj {[ "type" := String "Feature";
                "properties" := properties;
                "geometry" := geom ]}).

(** [helpers.featureCollection(features)] *)
Definition helpers_featureCollection (features : val) : M val :=
  alloc (Obj {[ "type" := String "FeatureCollection"; "features" := features ]}).

(** [meta.featureEach(geojson, callback)] *)
Definition featureEach (geojson : val) (callback : val -> M unit) : M unit :=
  type <- get geojson "type" ;;
  if is_string type "Feature" then callback geojson
  else if is_string type "FeatureCollection" then
    features <- get geojson "features" ;;
    for_elements features callback
  else ret tt.

Definition is_geometry_type (type : val) : bool :=
  is_string type "Point" || is_string type "LineString"
  || is_string type "MultiPoint" || is_string type "Polygon"
  || is_string type "MultiLineString" || is_string type "MultiPolygon".

(** [meta.geomEach(geojson, callback)] on a geometry or a Feature: the
    callback sees the geometry, or the members of a GeometryCollection,
    those of a collection nested in it included. *)
Definition geomEach (geojson : val) (callback : val -> M unit) : M unit :=
  type <- get geojson "type" ;;
  geometryMaybeCollection <-
    (if is_string type "Feature" then get geojson "geometry" else ret geojson) ;;
  let visit (geometry : val) : M unit :=
    match geometry with
    | Null => callback Null
    | _ =>
        type <- get geometry "type" ;;
        if is_geometry_type type then callback geometry
        else if is_string type "GeometryCollection" then
          geometries <- get geometry "geometries" ;;
          for_elements geometries callback
        else raise (Error "Unknown Geometry Type")
    end in
  if truthy geometryMaybeCollection then
    type <- get geometryMaybeCollection "type" ;;
    if is_string type "GeometryCollection" then
      geometries <- get geometryMaybeCollection "geometries" ;;
      for_elements geometries visit
    else visit geometryMaybeCollection
  else visit geometryMaybeCollection.

Section Buffer.
Variable L : Libraries.

(** The global [isNaN]. *)
Definition isNaN (v : val) : M bool :=
  read (fun σ =>
          match v with
          | Undefined | HelpersFeature => true
          | Null | Bool _ => false
          | Number f => PrimFloat.is_nan f
          | String s => PrimFloat.is_nan (string_to_number L s)
          | Ref l => PrimFloat.is_nan (object_to_number L σ l)
          end).

(** [proj(coords)] and [proj.invert(coords)]: the library reads the point
    and returns a new array. *)
Definition call_projection (f : list val -> list val) (coords : val) : M val :=
  match coords with
  | Undefined | Null => raise TypeError
  | _ =>
      point <- read (fun σ =>
                       match coords with
                       | Ref l => match σ !! l with
                                  | Some (Array elements) => elements
                                  | _ => []
                                  end
                       | _ => []
                       end) ;;
      alloc (Array (f point))
  end.

Fixpoint coordsIsNaN (fuel : nat) (coords : val) : M bool :=
  match fuel with
  | 0 => out_of_fuel
  | S fuel' =>
      c0 <- index coords 0 ;;
      is_array <- isArray c0 ;;
      if is_array : bool then coordsIsNaN fuel' c0 else isNaN c0
  end.

Fixpoint projectCoords (fuel : nat) (coords : val) (proj : GeoProjection) : M val :=
  match fuel with
  | 0 => out_of_fuel
  | S fuel' =>
      c0 <- index coords 0 ;;
      match typeof c0 with
      | TObject => array_map coords (fun coord => projectCoords fuel' coord proj)
      | _ => call_projection (forward proj) coords
      end
  end.

Fixpoint unprojectCoords (fuel : nat) (coords : val) (proj : GeoProjection) : M val :=
  match fuel with
  | 0 => out_of_fuel
  | S fuel' =>
      c0 <- index coords 0 ;;
      match typeof c0 with
      | TObject => array_map coords (fun coord => unprojectCoords fuel' coord proj)
      | _ => call_projection (invert proj) coords
      end
  end.

Definition defineProjection (geojson : val) : M GeoProjection :=
  coords <- call (fun σ => center L σ geojson) ;;
  rotation <- alloc (Array [Number (PrimFloat.opp (fst coords));
                            Number (PrimFloat.opp (snd coords))]) ;;
  ret (geoAzimuthalEquidistant L
         (PrimFloat.opp (fst coords), PrimFloat.opp (snd coords))
         (earthRadius L)).

Section BufferFeature.
Variables (radius units : val) (steps : float)
          (endCapStyle joinStyle : Z) (mitreLimit : float).

Fixpoint bufferFeature (fuel : nat) (geojson : val) : M val :=
  match fuel with
  | 0 => out_of_fuel
  | S fuel' =>
      properties <- get geojson "properties" ;;
      properties <- (if truthy properties then ret properties else alloc (Obj ∅)) ;;
      type <- get geojson "type" ;;
      geometry <-
        (if is_string type "Feature" then get geojson "geometry" else ret geojson) ;;
      type <- get geometry "type" ;;
      if is_string type "GeometryCollection" then
        results <- alloc (Array []) ;;
        _ <- geomEach geojson (fun geometry =>
               buffered <- bufferFeature fuel' geometry ;;
               if truthy buffered then push results buffered else ret tt) ;;
        helpers_featureCollection results
      else
        projection <- defineProjection geometry ;;
        coordinates <- get geometry "coordinates" ;;
        coordinates <- projectCoords fuel' coordinates projection ;;
        projected <- alloc (Obj {[ "type" := type; "coordinates" := coordinates ]}) ;;
        _ <- call (fun σ => reader_read L σ projected) ;;
        radians <- call (fun _ => lengthToRadians L radius units) ;;
        distance <- call (fun _ => radiansToLength L radians "meters") ;;
        written <- call (fun σ =>
                     jsts_buffer L σ projected
                       {| quadrantSegments := steps; bp_endCapStyle := endCapStyle;
                          bp_joinStyle := joinStyle; bp_mitreLimit := mitreLimit |}
                       distance) ;;
        buffered <- alloc_geometry written ;;
        coordinates <- get buffered "coordinates" ;;
        empty <- coordsIsNaN fuel' coordinates ;;
        if empty : bool then ret Undefined
        else
          type <- get buffered "type" ;;
          coordinates <- unprojectCoords fuel' coordinates projection ;;
          result <- alloc (Obj {[ "type" := type; "coordinates" := coordinates ]}) ;;
          helpers_feature result properties
  end.
End BufferFeature.

Definition switch_endCapStyle (endCapStyle : val) : M Z :=
  if is_string endCapStyle "round" then ret 1%Z
  else if is_string endCapStyle "flat" then ret 2%Z
  else if is_string endCapStyle "square" then ret 3%Z
  else raise endCapStyle_error.

Definition switch_joinStyle (joinStyle : val) : M Z :=
  if is_string joinStyle "round" then ret 1%Z
  else if is_string joinStyle "mitre" then ret 2%Z
  else if is_string joinStyle "bevel" then ret 3%Z
  else raise joinStyle_error.

Definition buffer (fuel : nat) (geojson radius options : val) : M val :=
  options <- (if truthy options then ret options else alloc (Obj ∅)) ;;
  units <- get options "units" ;;
  let units := js_or units (String "kilometers") in
  steps <- get options "steps" ;;
  let steps := js_or steps (Number 8) in
  endCapStyle <- get options "endCapStyle" ;;
  let endCapStyle := js_or endCapStyle (String "round") in
  joinStyle <- get options "joinStyle" ;;
  let joinStyle := js_or joinStyle (String "round") in
  mitreLimit <- get options "mitreLimit" ;;
  let mitreLimit := js_or mitreLimit (Number 5.0) in
  if negb (truthy geojson) then raise (Error "geojson is required") else
  match typeof options with
  | TObject =>
  match steps with
  | Number steps =>
    endCapStyle <- switch_endCapStyle endCapStyle ;;
    joinStyle <- switch_joinStyle joinStyle ;;
    match mitreLimit with
    | Number mitreLimit =>
      match radius with
      | Undefined => raise (Error "radius is required")
      | _ =>
        if PrimFloat.leb steps 0 then raise (Error "steps must be greater than 0")
        else
          results <- alloc (Array []) ;;
          type <- get geojson "type" ;;
          if is_string type "GeometryCollection" then
            _ <- geomEach geojson (fun geometry =>
                   buffered <- bufferFeature radius units steps endCapStyle
                                 joinStyle mitreLimit fuel HelpersFeature ;;
                   if truthy buffered then push results buffered else ret tt) ;;
            helpers_featureCollection results
          else if is_string type "FeatureCollection" then
            _ <- featureEach geojson (fun feature =>
                   multiBuffered <- bufferFeature radius units steps endCapStyle
                                      joinStyle mitreLimit fuel feature ;;
                   if truthy multiBuffered then
                     featureEach multiBuffered (fun buffered =>
                       if truthy buffered then push results buffered else ret tt)
                   else ret tt) ;;
            helpers_featureCollection results
          else
            bufferFeature radius units steps endCapStyle joinStyle mitreLimit
              fuel geojson
      end
    | _ => raise (Error "mitreLimit must be a number")
    end
  | _ => raise (Error "steps must be a number")
  end
  | _ => raise (Error "options must be an object")
  end.
(** *** The two halves of [buffer], over the store

    As for the embedding over values: [validate] is lines 41-84, [dispatch]
    lines 86-121, and [buffer] is the one followed by the other
    ([store_buffer_validate_dispatch]). *)

Record Parameters := {
  p_units : val;
  p_steps : float;
  p_endCapStyle : Z;
  p_joinStyle : Z;
  p_mitreLimit : float
}.

Definition validate (geojson radius options : val) : M Parameters :=
  options <- (if truthy options then ret options else alloc (Obj ∅)) ;;
  units <- get options "units" ;;
  let units := js_or units (String "kilometers") in
  steps <- get options "steps" ;;
  let steps := js_or steps (Number 8) in
  endCapStyle <- get options "endCapStyle" ;;
  let endCapStyle := js_or endCapStyle (String "round") in
  joinStyle <- get options "joinStyle" ;;
  let joinStyle := js_or joinStyle (String "round") in
  mitreLimit <- get options "mitreLimit" ;;
  let mitreLimit := js_or mitreLimit (Number 5.0) in
  if negb (truthy geojson) then raise (Error "geojson is required") else
  match typeof options with
  | TObject =>
  match steps with
  | Number steps =>
    endCapStyle <- switch_endCapStyle endCapStyle ;;
    joinStyle <- switch_joinStyle joinStyle ;;
    match mitreLimit with
    | Number mitreLimit =>
      match radius with
      | Undefined => raise (Error "radius is required")
      | _ =>
        if PrimFloat.leb steps 0 then raise (Error "steps must be greater than 0")
        else ret {| p_units := units; p_steps := steps;
                    p_endCapStyle := endCapStyle; p_joinStyle := joinStyle;
                    p_mitreLimit := mitreLimit |}
      end
    | _ => raise (Error "mitreLimit must be a number")
    end
  | _ => raise (Error "steps must be a number")
  end
  | _ => raise (Error "options must be an object")
  end.

Definition bufferFeature_with (radius : val) (p : Parameters) (fuel : nat)
    (geojson : val) : M val :=
  bufferFeature radius (p_units p) (p_steps p) (p_endCapStyle p) (p_joinStyle p)
    (p_mitreLimit p) fuel geojson.

Definition dispatch (fuel : nat) (geojson radius : val) (p : Parameters) : M val :=
  results <- alloc (Array []) ;;
  type <- get geojson "type" ;;
  if is_string type "GeometryCollection" then
    _ <- geomEach geojson (fun geometry =>
           buffered <- bufferFeature_with radius p fuel HelpersFeature ;;
           if truthy buffered then push results buffered else ret tt) ;;
    helpers_featureCollection results
  else if is_string type "FeatureCollection" then
    _ <- featureEach geojson (fun feature =>
           multiBuffered <- bufferFeature_with radius p fuel feature ;;
           if truthy multiBuffered then
             featureEach multiBuffered (fun buffered =>
               if truthy buffered then push results buffered else ret tt)
           else ret tt) ;;
    helpers_featureCollection results
  else bufferFeature_with radius p fuel geojson.
End Buffer.

(** The store changes only by growing: every object of [σ] is in [σ'],
    unchanged. *)
Definition unchanged (σ σ' : store) : Prop := σ ⊆ σ'.

(** [m] leaves every object of [σ0] as it is, from any store that holds
    them. *)
Definition safe (σ0 : store) {A} (m : M A) : Prop :=
  forall σ, unchanged σ0 σ -> unchanged σ0 (m σ).2.

(** A value that is not a reference into [σ0]. *)
Definition fresh_ref (σ0 : store) (v : val) : Prop :=
  match v with
  | Ref l => σ0 !! l = None
  | _ => True
  end.

(** ** The interop helper of [index.js] *)

(** ['name' in v] for an object. *)
Definition has_property (v : val) (name : string) : M bool :=
  read (fun σ =>
          match v with
          | Ref l =>
              match σ !! l with
              | Some (Obj fields) => bool_decide (is_Some (fields !! name))
              | _ => false
              end
          | _ => false
          end).

(** [e && typeof e === 'object' && 'default' in e ? e : { 'default': e }] *)
Definition _interopDefaultLegacy (e : val) : M val :=
  if truthy e then
    match typeof e with
    | TObject =>
        has_default <- has_property e "default" ;;
        if has_default : bool then ret e else alloc (Obj {[ "default" := e ]})
    | _ => alloc (Obj {[ "default" := e ]})
    end
  else alloc (Obj {[ "default" := e ]}).

(** ** Notions for the properties over the store *)

(** [m], run from any store that holds the objects of [σ0], leaves them as
    they are, and what it returns satisfies [Q] in the store it leaves. *)
Definition triple (σ0 : store) {A} (m : M A) (Q : A -> store -> Prop) : Prop :=
  forall σ, unchanged σ0 σ ->
    unchanged σ0 (m σ).2 /\ forall a, (m σ).1 = Return a -> Q a (m σ).2.

(** [v] is [undefined], or an object of [σ'] that [σ0] does not hold. *)
Definition new_object (σ0 : store) (v : val) (σ' : store) : Prop :=
  v = Undefined \/ exists l, v = Ref l /\ σ0 !! l = None /\ is_Some (σ' !! l).

(** The object returned at [v] is a FeatureCollection, or a Feature whose
    [properties] is [p]. *)
Definition feature_with_properties (p v : val) (σ' : store) : Prop :=
  match v with
  | Ref l =>
      exists fields,
        σ' !! l = Some (Obj fields)
        /\ (fields !! "type" = Some (String "FeatureCollection")
            \/ (fields !! "type" = Some (String "Feature")
                /\ fields !! "properties" = Some p))
  | _ => True
  end.

(** [v] is, in [σ], the coordinate value [c]: a number, or a reference to an
    array whose elements are the elements of [c]. *)
Fixpoint represents (σ : store) (v : val) (c : Coords) {struct c} : Prop :=
  match c with
  | Num x => v = Number x
  | Arr elements =>
      exists l vs,
        v = Ref l /\ σ !! l = Some (Array vs)
        /\ (fix all (cs : list Coords) (vs : list val) {struct cs} : Prop :=
              match cs, vs with
              | [], [] => True
              | c :: cs', v :: vs' => represents σ v c /\ all cs' vs'
              | _, _ => False
              end) elements vs
  end.

(** The nesting met by descending first elements, and the nesting of the
    whole value. *)
Fixpoint first_depth (c : Coords) : nat :=
  match c with
  | Arr (c0 :: _) =>
      match c0 with
      | Arr _ => S (first_depth c0)
      | Num _ => 0
      end
  | _ => 0
  end.

Fixpoint depth (c : Coords) : nat :=
  match c with
  | Num _ => 0
  | Arr elements => S (list_max (List.map depth elements))
  end.

Definition is_Num (c : Coords) : bool :=
  match c with
  | Num _ => true
  | Arr _ => false
  end.

(** GeoJSON coordinates: a position (an array of numbers), or an array of
    coordinates that starts with an array. *)
Fixpoint well_formed (c : Coords) : bool :=
  match c with
  | Num _ => false
  | Arr elements =>
      forallb is_Num elements
      || (negb (forallb is_Num (firstn 1 elements)) && forallb well_formed elements)
  end.

(** A transform over the store and one over values compute the same
    numbers from the same numbers. *)
Definition agrees (f : list val -> list val) (g : Coords -> Coords) : Prop :=
  forall xs : list float,
    exists ys : list float,
      f (List.map Number xs) = List.map Number ys
      /\ g (Arr (List.map Num xs)) = Arr (List.map Num ys).

(** ** Notions for the FeatureCollection branch *)

(** The features [meta.featureEach] visits in [v]: a Feature itself, the
    elements of the [features] array of a FeatureCollection. *)
Definition features_of (σ : store) (v : val) : list val :=
  match v with
  | Ref l =>
      match σ !! l with
      | Some (Obj fields) =>
          if is_string (default Undefined (fields !! "type")) "Feature" then [v]
          else if is_string (default Undefined (fields !! "type")) "FeatureCollection"
          then
            match fields !! "features" with
            | Some (Ref a) =>
                match σ !! a with
                | Some (Array elements) => elements
                | _ => []
                end
            | _ => []
            end
          else []
      | _ => []
      end
  | _ => []
  end.

(** What the callback of the FeatureCollection loop pushes for the value
    [multiBuffered] that [bufferFeature] returned: nothing for [undefined],
    and otherwise the features of it that are truthy. *)
Definition pushed (σ : store) (multiBuffered : val) : list val :=
  if truthy multiBuffered then List.filter truthy (features_of σ multiBuffered)
  else [].

(** [outs] lists, member after member and in the order of [members], what
    [step] contributes for each: the member is buffered in a store that
    holds the objects of [σ0] as they were, [step] returns, and what is
    pushed for the value returned comes next in [outs]. *)
Inductive contributions (step : val -> M val) (σ0 : store) :
    list val -> list val -> Prop :=
  | contributions_nil : contributions step σ0 [] []
  | contributions_cons member members σ v σ' outs :
      unchanged σ0 σ ->
      step member σ = (Return v, σ') ->
      contributions step σ0 members outs ->
      contributions step σ0 (member :: members) (pushed σ' v ++ outs).

(** [o] is the exception, or the exhaustion of fuel, that [o'] is. *)
Definition fails_as {A B} (o : outcome A) (o' : outcome B) : Prop :=
  match o, o' with
  | Raise e, Raise e' => e = e'
  | OutOfFuel, OutOfFuel => True
  | _, _ => False
  end.

(** [m] keeps the invariant [I] of the store, however it ends. *)
Definition keeps (I : store -> Prop) {A} (m : M A) : Prop :=
  forall σ, I σ -> I (m σ).2.

(** [l] holds an array. *)
Definition holds_array (l : loc) (σ : store) : Prop :=
  exists elements, σ !! l = Some (Array elements).

(** The callback of the loops: [if (buffered) results.push(buffered)]. *)
Definition push_if_truthy (results buffered : val) : M unit :=
  if truthy buffered then push results buffered else ret tt.

(** What [bufferFeature] returns: [undefined], a Feature, or a
    FeatureCollection over an array created after [σ0]. *)
Definition returned_shape (σ0 : store) (v : val) (σ' : store) : Prop :=
  v = Undefined
  \/ exists l fields,
       v = Ref l /\ σ0 !! l = None /\ σ' !! l = Some (Obj fields)
       /\ (fields !! "type" = Some (String "Feature")
           \/ (fields !! "type" = Some (String "FeatureCollection")
               /\ exists a elements,
                    fields !! "features" = Some (Ref a)
                    /\ σ0 !! a = None /\ σ' !! a = Some (Array elements))).

End Store.

(** Stand-ins for the libraries over the store. *)
Definition shift_elements (dx dy : float) (point : list Store.val) : list Store.val :=
  match point with
  | [Store.Number x; Store.Number y] =>
      [Store.Number (PrimFloat.add x dx); Store.Number (PrimFloat.add y dy)]
  | _ => [Store.Number nan; Store.Number nan]
  end.

Definition store_test_libraries : Store.Libraries :=
  {| Store.center := fun _ _ => Ok (0%float, 0%float);
     Store.geoAzimuthalEquidistant := fun rotation _ =>
       {| Store.forward := shift_elements (fst rotation) (snd rotation);
          Store.invert := shift_elements (PrimFloat.opp (fst rotation))
                            (PrimFloat.opp (snd rotation)) |};
     Store.earthRadius := 0x1.84db033333333p+22%float;
     Store.lengthToRadians := fun radius _ =>
       Ok (match radius with Store.Number r => r | _ => nan end);
     Store.radiansToLength := fun r _ => Ok r;
     Store.reader_read := fun _ _ => Ok tt;
     Store.jsts_buffer := fun _ _ bp distance =>
       Ok (if PrimFloat.leb distance 0 then SimpleGeometry Polygon (Arr [])
           else SimpleGeometry Polygon
                  (Arr [Arr [Arr [Num distance; Num (quadrantSegments bp)];
                             Arr [Num (bp_mitreLimit bp); Num nan]]]));
     Store.string_to_number := fun _ => nan;
     Store.object_to_number := fun _ _ => nan |}.

(** A store holding a Point at location 1, a Feature over it at 3, a
    FeatureCollection of that Feature at 5, and an options object at 6. *)
Definition test_store : Store.store :=
  list_to_map
    [(0, Store.Array [Store.Number 0; Store.Number 0]);
     (1, Store.Obj {[ "type" := Store.String "Point"; "coordinates" := Store.Ref 0 ]});
     (2, Store.Obj {[ "name" := Store.String "well" ]});
     (3, Store.Obj {[ "type" := Store.String "Feature";
                      "properties" := Store.Ref 2; "geometry" := Store.Ref 1 ]});
     (4, Store.Array [Store.Ref 3]);
     (5, Store.Obj {[ "type" := Store.String "FeatureCollection";
                      "features" := Store.Ref 4 ]});
     (6, Store.Obj {[ "steps" := Store.Number 4 ]});
     (7, Store.Array [Store.Ref 1]);
     (8, Store.Obj {[ "type" := Store.String "GeometryCollection";
                      "geometries" := Store.Ref 7 ]})].

(** The inverse of [shift_elements]. *)
Definition unshift_elements (dx dy : float) (point : list Store.val) : list Store.val :=
  match point with
  | [Store.Number x; Store.Number y] =>
      [Store.Number (PrimFloat.sub x dx); Store.Number (PrimFloat.sub y dy)]
  | _ => [Store.Number nan; Store.Number nan]
  end.

(** [shift_projection] over the store. *)
Definition store_shift_projection (rotation : float * float) : Store.GeoProjection :=
  {| Store.forward := shift_elements (fst rotation) (snd rotation);
     Store.invert := unshift_elements (fst rotation) (snd rotation) |}.

(** A store holding the line [[[1, 2], [3, 4]]] at location 2. *)
Definition line_store : Store.store :=
  list_to_map
    [(0, Store.Array [Store.Number 1; Store.Number 2]);
     (1, Store.Array [Store.Number 3; Store.Number 4]);
     (2, Store.Array [Store.Ref 0; Store.Ref 1])].

(** A store holding, at location 2, a FeatureCollection of one Feature
    whose geometry is [null]. *)
Definition null_geometry_store : Store.store :=
  list_to_map
    [(0, Store.Obj {[ "type" := Store.String "Feature";
                      "properties" := Store.Null; "geometry" := Store.Null ]});
     (1, Store.Array [Store.Ref 0]);
     (2, Store.Obj {[ "type" := Store.String "FeatureCollection";
                      "features" := Store.Ref 1 ]})].

(** * Lemmas and theorems *)

(** ** Lemmas on the embedding *)

Lemma buffer_validate_dispatch L geojson radius options :
  buffer L geojson radius options =
  match geojson with
  | Some g => p <- validate geojson radius options ;; dispatch L radius p g
  | None => Throw (Error "geojson is required")
  end.
Proof.
  unfold buffer, validate, effective_options.
  destruct geojson as [g|]; [|reflexivity].
  destruct (options_typeof _); try reflexivity.
  destruct (js_or (o_steps _) _); try reflexivity.
  destruct (switch_endCapStyle _) as [cap|]; [|reflexivity]; cbn [bind].
  destruct (switch_joinStyle _) as [join|]; [|reflexivity]; cbn [bind].
  destruct (js_or (o_mitreLimit _) _); try reflexivity.
  destruct radius; try reflexivity;
    (destruct (PrimFloat.leb _ _); [reflexivity|]);
    destruct g as [[]| |]; reflexivity.
Qed.

(** The patterns of [projectCoords] and [unprojectCoords] are the test
    [typeof coords[0] !== "object"]. *)
Lemma projectCoords_typeof_first coords proj :
  projectCoords coords proj =
  match typeof_first coords, coords with
  | TObject, Arr elements =>
      Arr (List.map (fun coord => projectCoords coord proj) elements)
  | _, _ => forward proj coords
  end
  /\ unprojectCoords coords proj =
     match typeof_first coords, coords with
     | TObject, Arr elements =>
         Arr (List.map (fun coord => unprojectCoords coord proj) elements)
     | _, _ => invert proj coords
     end.
Proof. destruct coords as [x|[|[x|l] elements]]; split; reflexivity. Qed.

(** *** Loops *)

Lemma forEach_push (bs : list Output) results :
  forEach (fun results buffered => Ok (push_if_truthy results (Some buffered)))
    bs results = Ok (results ++ bs).
Proof.
  revert results; induction bs as [|b bs IH]; intros results; cbn.
  - by rewrite app_nil_r.
  - rewrite IH. by rewrite <- app_assoc.
Qed.

(** *** [bufferFeature] on GeoJSON never throws *)

Section BufferFeatureFacts.
Variables (L : Libraries) (radius units : value) (steps : float)
          (endCapStyle joinStyle : Z) (mitreLimit : float).

Local Abbreviation bufferFeature' :=
  (bufferFeature L radius units steps endCapStyle joinStyle mitreLimit).
Local Abbreviation bufferSimple' :=
  (bufferSimple L radius units steps endCapStyle joinStyle mitreLimit).

Lemma forEach_members (gs : list simpleGeometry) results :
  forEach (fun results geometry =>
             let buffered :=
               bufferSimple' (sg_type geometry) (sg_coordinates geometry) ∅ in
             Ok (push_if_truthy results buffered)) gs results =
  Ok (results ++
      omap (fun g => bufferSimple' (sg_type g) (sg_coordinates g) ∅) gs).
Proof.
  revert results; induction gs as [|g gs IH]; intros results; cbn.
  - by rewrite app_nil_r.
  - rewrite IH. destruct (bufferSimple' _ _ _); cbn; [|reflexivity].
    by rewrite <- app_assoc.
Qed.


Lemma bufferFeature_Geom type coordinates :
  bufferFeature' (ArgGeometry (Geom type coordinates)) =
  Ok (bufferSimple' type coordinates ∅).
Proof. reflexivity. Qed.

Lemma bufferFeature_Feature_Geom type coordinates properties :
  bufferFeature' (ArgFeature (mkFeature (Geom type coordinates) properties)) =
  Ok (bufferSimple' type coordinates (default ∅ properties)).
Proof. destruct properties; reflexivity. Qed.

(** The GeometryCollection branch: the member geometries are buffered by
    the recursive call, as bare geometries. *)
Lemma bufferFeature_collection geojson geometries :
  geojson = ArgGeometry (GeometryCollection geometries) \/
  (exists properties,
     geojson = ArgFeature (mkFeature (GeometryCollection geometries) properties)) ->
  bufferFeature' geojson =
  Ok (Some (helpers_featureCollection
              (omap (fun g => bufferSimple' (sg_type g) (sg_coordinates g) ∅)
                    geometries))).
Proof.
  intros [->|[properties ->]]; cbn; unfold geomEach;
    rewrite forEach_members; reflexivity.
Qed.

Lemma bufferFeature_returns geojson :
  geojson <> ArgHelpersFeature -> exists o, bufferFeature' geojson = Ok o.
Proof.
  intros Hne. destruct geojson as [g|[g properties]|]; [| |congruence].
  - destruct g as [type coordinates|geometries]; [eexists; reflexivity|].
    eexists. apply bufferFeature_collection. by left.
  - destruct g as [type coordinates|geometries].
    + eexists. apply bufferFeature_Feature_Geom.
    + eexists. apply bufferFeature_collection. right. by eexists.
Qed.

Lemma bufferFeature_throws geojson e :
  bufferFeature' geojson = Throw e -> geojson = ArgHelpersFeature /\ e = TypeError.
Proof.
  destruct geojson as [g|f|].
  - destruct (bufferFeature_returns (ArgGeometry g)) as [o Ho]; congruence.
  - destruct (bufferFeature_returns (ArgFeature f)) as [o Ho]; congruence.
  - cbn. intros [= <-]. done.
Qed.
End BufferFeatureFacts.

(** *** The FeatureCollection loop of [buffer] *)

Lemma forEach_features L radius p features results :
  forEach (fun results feature =>
             multiBuffered <- bufferFeature_with L radius p (ArgFeature feature) ;;
             match multiBuffered with
             | Some multiBuffered =>
                 forEach (fun results buffered =>
                            Ok (push_if_truthy results (Some buffered)))
                         (featureEach_output multiBuffered) results
             | None => Ok results
             end) features results =
  Ok (results ++
      flat_map (fun f => members (bufferFeature_with L radius p (ArgFeature f)))
               features).
Proof.
  revert results; induction features as [|f fs IH]; intros results;
    cbn [forEach flat_map].
  - by rewrite app_nil_r.
  - destruct (bufferFeature_returns L radius (p_units p) (p_steps p)
                (p_endCapStyle p) (p_joinStyle p) (p_mitreLimit p)
                (ArgFeature f)) as [o Ho]; [done|].
    fold (bufferFeature_with L radius p) in Ho. rewrite Ho. cbn [bind members].
    destruct o as [o|].
    + rewrite forEach_push. cbn [bind]. rewrite IH. by rewrite <- app_assoc.
    + cbn [bind app]. apply IH.
Qed.

(** *** What [dispatch] throws *)

(** The defect on every non-empty top-level GeometryCollection. *)
Lemma dispatch_GeometryCollection L radius p geometries :
  dispatch L radius p (GGeometry (GeometryCollection geometries)) =
  match geometries with
  | [] => Ok (Some (helpers_featureCollection []))
  | _ => Throw TypeError
  end.
Proof. destruct geometries; reflexivity. Qed.

Lemma dispatch_throws L radius p geojson e :
  dispatch L radius p geojson = Throw e -> e = TypeError.
Proof.
  destruct geojson as [[type coordinates|geometries]|f|features].
  - cbn [dispatch]. unfold bufferFeature_with.
    intros H. by apply bufferFeature_throws in H as [_ ->].
  - rewrite dispatch_GeometryCollection. destruct geometries; congruence.
  - cbn [dispatch]. unfold bufferFeature_with.
    intros H. by apply bufferFeature_throws in H as [_ ->].
  - cbn [dispatch]. rewrite forEach_features. discriminate.
Qed.

(** *** Cap and join styles *)

Lemma switch_endCapStyle_valid v :
  if valid_endCapStyle v then exists code, switch_endCapStyle v = Ok code
  else switch_endCapStyle v = Throw endCapStyle_error.
Proof.
  destruct v; cbn; try reflexivity.
  destruct (String.eqb s "round"); [by eexists|].
  destruct (String.eqb s "flat"); [by eexists|].
  destruct (String.eqb s "square"); [by eexists|reflexivity].
Qed.

Lemma switch_joinStyle_valid v :
  if valid_joinStyle v then exists code, switch_joinStyle v = Ok code
  else switch_joinStyle v = Throw joinStyle_error.
Proof.
  destruct v; cbn; try reflexivity.
  destruct (String.eqb s "round"); [by eexists|].
  destruct (String.eqb s "mitre"); [by eexists|].
  destruct (String.eqb s "bevel"); [by eexists|reflexivity].
Qed.

(** After [x = options.x || "round"], the style is invalid exactly when the
    option is truthy and invalid. *)
Lemma valid_endCapStyle_default v :
  valid_endCapStyle (js_or v (VString "round")) =
  negb (truthy v && negb (valid_endCapStyle v)).
Proof. unfold js_or. destruct (truthy v); [|reflexivity]. cbn. by rewrite negb_involutive. Qed.

Lemma valid_joinStyle_default v :
  valid_joinStyle (js_or v (VString "round")) =
  negb (truthy v && negb (valid_joinStyle v)).
Proof. unfold js_or. destruct (truthy v); [|reflexivity]. cbn. by rewrite negb_involutive. Qed.

(** What remains of [validate] after the two [switch] statements throws
    neither style error. *)
Lemma validate_style_error geojson radius o e :
  typeof (js_or (o_steps o) (VNumber 8)) = TNumber ->
  validate (Some geojson) radius (OptObject o) = Throw e ->
  style_error e ->
  valid_endCapStyle (js_or (o_endCapStyle o) (VString "round")) &&
  valid_joinStyle (js_or (o_joinStyle o) (VString "round")) = false.
Proof.
  unfold validate, effective_options. cbn [options_truthy options_typeof options_fields].
  intros Hsteps. destruct (js_or (o_steps o) _) as [| | | steps | | |]; try discriminate.
  pose proof (switch_endCapStyle_valid (js_or (o_endCapStyle o) (VString "round"))) as Hc.
  pose proof (switch_joinStyle_valid (js_or (o_joinStyle o) (VString "round"))) as Hj.
  destruct (valid_endCapStyle _); [|reflexivity].
  destruct (valid_joinStyle _); [|reflexivity].
  destruct Hc as [cap ->], Hj as [join ->]. cbn [bind].
  intros H [-> | ->]; exfalso; revert H;
    destruct (js_or (o_mitreLimit o) _); try discriminate;
    destruct radius; try discriminate;
    destruct (PrimFloat.leb _ _); discriminate.
Qed.

Lemma buffer_style_throw L geojson radius o :
  typeof (js_or (o_steps o) (VNumber 8)) = TNumber ->
  valid_endCapStyle (js_or (o_endCapStyle o) (VString "round")) &&
  valid_joinStyle (js_or (o_joinStyle o) (VString "round")) = false ->
  exists e, style_error e /\
            buffer L (Some geojson) radius (OptObject o) = Throw e.
Proof.
  intros Hsteps Hv. rewrite buffer_validate_dispatch.
  unfold validate, effective_options.
  cbn [options_truthy options_typeof options_fields].
  destruct (js_or (o_steps o) _) as [| | | steps | | |]; try discriminate.
  pose proof (switch_endCapStyle_valid (js_or (o_endCapStyle o) (VString "round"))) as Hc.
  pose proof (switch_joinStyle_valid (js_or (o_joinStyle o) (VString "round"))) as Hj.
  destruct (valid_endCapStyle _).
  - destruct (valid_joinStyle _); [discriminate|].
    destruct Hc as [cap ->]. rewrite Hj. exists joinStyle_error.
    split; [by right | reflexivity].
  - rewrite Hc. exists endCapStyle_error. split; [by left | reflexivity].
Qed.

(** C3 (amended).  With [geojson] given, an options object and a [steps]
    that is a number once defaulted, [buffer] throws one of the two style
    errors exactly when [endCapStyle] or [joinStyle] is truthy and outside
    its set; the libraries play no part in it.  A falsy style (absent, or
    the empty string) is replaced by "round". *)
Theorem buffer_style_error_iff L geojson radius o :
  typeof (js_or (o_steps o) (VNumber 8)) = TNumber ->
  ((exists e, style_error e /\
              buffer L (Some geojson) radius (OptObject o) = Throw e)
   <-> (truthy (o_endCapStyle o) && negb (valid_endCapStyle (o_endCapStyle o)))
       || (truthy (o_joinStyle o) && negb (valid_joinStyle (o_joinStyle o)))
       = true)
  /\ (forall v, truthy v = false ->
        buffer L (Some geojson) radius (OptObject (with_endCapStyle o v)) =
        buffer L (Some geojson) radius
          (OptObject (with_endCapStyle o (VString "round"))))
  /\ (forall v, truthy v = false ->
        buffer L (Some geojson) radius (OptObject (with_joinStyle o v)) =
        buffer L (Some geojson) radius
          (OptObject (with_joinStyle o (VString "round")))).
Proof.
  intros Hsteps. split; [split|split].
  - intros (e & He & Hthrow).
    rewrite buffer_validate_dispatch in Hthrow.
    destruct (validate _ _ _) as [p|e'] eqn:Hval; cbn [bind] in Hthrow.
    + apply dispatch_throws in Hthrow as ->.
      destruct He as [He|He]; discriminate He.
    + injection Hthrow as ->.
      pose proof (validate_style_error _ _ _ _ Hsteps Hval He) as Hv.
      rewrite valid_endCapStyle_default, valid_joinStyle_default in Hv.
      rewrite <- negb_orb in Hv. by apply negb_false_iff in Hv.
  - intros Hv. apply buffer_style_throw; [exact Hsteps|].
    rewrite valid_endCapStyle_default, valid_joinStyle_default.
    rewrite <- negb_orb. by apply negb_false_iff.
  - intros v Hv. unfold buffer, with_endCapStyle, js_or.
    cbn [options_truthy options_fields o_endCapStyle]. by rewrite Hv.
  - intros v Hv. unfold buffer, with_joinStyle, js_or.
    cbn [options_truthy options_fields o_joinStyle]. by rewrite Hv.
Qed.

(** The misspelt join style "miter" is rejected. *)
Lemma buffer_style_error_iff_witness :
  exists e, style_error e /\
    buffer test_libraries (Some (GGeometry (point 0 0))) (VNumber 1)
      (OptObject (with_joinStyle empty_options (VString "miter"))) = Throw e.
Proof.
  apply (proj1 (buffer_style_error_iff test_libraries (GGeometry (point 0 0))
                  (VNumber 1) (with_joinStyle empty_options (VString "miter"))
                  eq_refl)).
  reflexivity.
Defined.

(** C3 as stated fails: the empty string is a present [endCapStyle] outside
    {round, flat, square}, and [buffer] does not throw on it. *)
Lemma endCapStyle_empty_string_accepted :
  ~ (forall L geojson radius o s,
       o_endCapStyle o = VString s ->
       valid_endCapStyle (VString s) = false ->
       exists e, buffer L (Some geojson) radius (OptObject o) = Throw e).
Proof.
  intros H.
  destruct (H test_libraries (GGeometry (point 0 0)) (VNumber 1)
              (with_endCapStyle empty_options (VString "")) ""
              eq_refl eq_refl) as [e He].
  vm_compute in He. discriminate He.
Qed.

(** *** The mitre limit *)

Lemma validate_mitreLimit_number geojson radius o m :
  truthy (VNumber m) = true ->
  validate geojson radius (OptObject (with_mitreLimit o (VNumber m))) =
  (p <- validate geojson radius (OptObject (with_mitreLimit o VUndefined)) ;;
   Ok (with_p_mitreLimit p m)).
Proof.
  intros Hm. unfold validate, effective_options, js_or.
  cbn [options_truthy options_typeof options_fields with_mitreLimit
       o_units o_steps o_endCapStyle o_joinStyle o_mitreLimit].
  rewrite Hm. cbn [truthy].
  destruct geojson; [|reflexivity].
  destruct (if truthy (o_steps o) then _ else _); try reflexivity.
  destruct (switch_endCapStyle _); [|reflexivity]; cbn [bind].
  destruct (switch_joinStyle _); [|reflexivity]; cbn [bind].
  destruct radius; try reflexivity; destruct (PrimFloat.leb _ _); reflexivity.
Qed.

Lemma buffer_mitreLimit_falsy L geojson radius o v :
  truthy v = false ->
  buffer L geojson radius (OptObject (with_mitreLimit o v)) =
  buffer L geojson radius (OptObject (with_mitreLimit o (VNumber 5))).
Proof.
  intros Hv. unfold buffer, with_mitreLimit, js_or.
  cbn [options_truthy options_fields o_mitreLimit]. rewrite Hv.
  replace (truthy (VNumber 5)) with true by (vm_compute; reflexivity).
  reflexivity.
Qed.

(** C4 (amended).  A truthy [mitreLimit] that is not a number makes every
    call fail with a validation error, whatever the libraries compute.  A
    truthy number, of either sign, is not checked: the call is valid
    exactly when it is valid without the option, and the number reaches
    [bufferFeature] unchanged.  A falsy [mitreLimit] is replaced by 5. *)
Theorem buffer_mitreLimit L geojson radius o :
  (truthy (o_mitreLimit o) = true -> typeof (o_mitreLimit o) <> TNumber ->
   exists message, buffer L geojson radius (OptObject o) = Throw (Error message))
  /\ (forall m g, truthy (VNumber m) = true ->
        buffer L (Some g) radius (OptObject (with_mitreLimit o (VNumber m))) =
        (p <- validate (Some g) radius (OptObject (with_mitreLimit o VUndefined)) ;;
         dispatch L radius (with_p_mitreLimit p m) g))
  /\ (forall v, truthy v = false ->
        buffer L geojson radius (OptObject (with_mitreLimit o v)) =
        buffer L geojson radius (OptObject (with_mitreLimit o (VNumber 5)))).
Proof.
  split; [|split].
  - intros Htruthy Htype. rewrite buffer_validate_dispatch.
    destruct geojson as [g|]; [|by eexists].
    unfold validate, effective_options.
    cbn [options_truthy options_typeof options_fields].
    destruct (js_or (o_steps o) _); try by eexists.
    pose proof (switch_endCapStyle_valid (js_or (o_endCapStyle o) (VString "round"))) as Hc.
    pose proof (switch_joinStyle_valid (js_or (o_joinStyle o) (VString "round"))) as Hj.
    destruct (valid_endCapStyle _); [destruct Hc as [cap ->]|rewrite Hc; by eexists].
    destruct (valid_joinStyle _); [destruct Hj as [join ->]|rewrite Hj; by eexists].
    cbn [bind]. unfold js_or at 1. rewrite Htruthy.
    destruct (o_mitreLimit o); try (exfalso; by apply Htype); by eexists.
  - intros m g Hm. rewrite buffer_validate_dispatch, validate_mitreLimit_number by done.
    destruct (validate _ _ _); reflexivity.
  - intros v Hv. by apply buffer_mitreLimit_falsy.
Qed.

(** A [mitreLimit] given as the string "5" is rejected. *)
Lemma buffer_mitreLimit_witness :
  exists message,
    buffer test_libraries (Some (GGeometry (point 0 0))) (VNumber 1)
      (OptObject (with_mitreLimit empty_options (VString "5"))) =
    Throw (Error message).
Proof.
  apply (proj1 (buffer_mitreLimit test_libraries (Some (GGeometry (point 0 0)))
                  (VNumber 1) (with_mitreLimit empty_options (VString "5")))).
  - reflexivity.
  - discriminate.
Defined.

(** C4 as stated fails: [mitreLimit: -1] is not a number greater than 0,
    and the call is buffered with it. *)
Lemma negative_mitreLimit_accepted :
  ~ (forall L geojson radius o m,
       o_mitreLimit o = VNumber m -> PrimFloat.ltb 0 m = false ->
       exists e, buffer L (Some geojson) radius (OptObject o) = Throw e)
  /\ buffer test_libraries (Some (GGeometry (point 0 0))) (VNumber 1)
       (OptObject (with_mitreLimit empty_options (VNumber (-1)))) =
     Ok (Some (helpers_feature
                 (SimpleGeometry Polygon
                    (Arr [Arr [Arr [Num 1; Num 8]; Arr [Num (-1); Num nan];
                               Arr [Num 0; Num 0]]]))
                 ∅)).
Proof.
  split.
  - intros H.
    destruct (H test_libraries (GGeometry (point 0 0)) (VNumber 1)
                (with_mitreLimit empty_options (VNumber (-1))) (-1)%float
                eq_refl eq_refl) as [e He].
    vm_compute in He. discriminate He.
  - vm_compute. reflexivity.
Qed.

(** *** Falsy numeric options *)

Lemma float_leb_ltb x y :
  PrimFloat.leb x y = true -> PrimFloat.eqb x y = false -> PrimFloat.ltb x y = true.
Proof.
  rewrite leb_spec, FloatAxioms.eqb_spec, ltb_spec.
  unfold SFleb, SFeqb, SFltb.
  destruct (SFcompare _ _) as [[]|]; congruence.
Qed.

Lemma validate_steps_error geojson radius options :
  validate geojson radius options = Throw steps_error ->
  exists steps,
    o_steps (options_fields (effective_options options)) = VNumber steps
    /\ PrimFloat.ltb steps 0 = true.
Proof.
  unfold validate.
  set (o := options_fields (effective_options options)).
  destruct geojson; [|discriminate].
  destruct (options_typeof _); try discriminate.
  unfold js_or at 1. destruct (truthy (o_steps o)) eqn:Htruthy.
  - destruct (o_steps o) as [| | | steps | | |]; try discriminate.
    destruct (switch_endCapStyle _) as [cap|e] eqn:Hc; cbn [bind];
      [|pose proof (switch_endCapStyle_valid (js_or (o_endCapStyle o) (VString "round"))) as Hc';
        rewrite Hc in Hc'; destruct (valid_endCapStyle _);
        [by destruct Hc' | injection Hc' as ->; discriminate]].
    destruct (switch_joinStyle _) as [join|e] eqn:Hj; cbn [bind];
      [|pose proof (switch_joinStyle_valid (js_or (o_joinStyle o) (VString "round"))) as Hj';
        rewrite Hj in Hj'; destruct (valid_joinStyle _);
        [by destruct Hj' | injection Hj' as ->; discriminate]].
    destruct (js_or (o_mitreLimit o) _); try discriminate.
    destruct (PrimFloat.leb steps 0) eqn:Hle;
      [|destruct radius; discriminate].
    intros _. exists steps. split; [reflexivity|].
    apply float_leb_ltb; [exact Hle|].
    cbn [truthy] in Htruthy. apply negb_true_iff, orb_false_iff in Htruthy.
    tauto.
  - replace (PrimFloat.leb 8 0) with false by (vm_compute; reflexivity).
    destruct (switch_endCapStyle _) as [cap|e] eqn:Hc; cbn [bind];
      [|pose proof (switch_endCapStyle_valid (js_or (o_endCapStyle o) (VString "round"))) as Hc';
        rewrite Hc in Hc'; destruct (valid_endCapStyle _);
        [by destruct Hc' | injection Hc' as ->; discriminate]].
    destruct (switch_joinStyle _) as [join|e] eqn:Hj; cbn [bind];
      [|pose proof (switch_joinStyle_valid (js_or (o_joinStyle o) (VString "round"))) as Hj';
        rewrite Hj in Hj'; destruct (valid_joinStyle _);
        [by destruct Hj' | injection Hj' as ->; discriminate]].
    destruct (js_or (o_mitreLimit o) _); try discriminate.
    destruct radius; discriminate.
Qed.

(** C8.  A falsy [steps] (0 included) is replaced by 8 and a falsy
    [mitreLimit] (0 included) by 5 before anything is checked, so the call
    is the call made with the default; and when [buffer] throws "steps must
    be greater than 0", [options.steps] is a number below zero. *)
Theorem buffer_falsy_numeric_options L geojson radius :
  (forall o v, truthy v = false ->
     buffer L geojson radius (OptObject (with_steps o v)) =
     buffer L geojson radius (OptObject (with_steps o (VNumber 8))))
  /\ (forall o v, truthy v = false ->
        buffer L geojson radius (OptObject (with_mitreLimit o v)) =
        buffer L geojson radius (OptObject (with_mitreLimit o (VNumber 5))))
  /\ truthy (VNumber 0) = false
  /\ (forall options,
        buffer L geojson radius options = Throw steps_error ->
        exists steps,
          o_steps (options_fields (effective_options options)) = VNumber steps
          /\ PrimFloat.ltb steps 0 = true).
Proof.
  split; [|split; [|split]].
  - intros o v Hv. unfold buffer, with_steps, js_or.
    cbn [options_truthy options_fields o_steps]. rewrite Hv.
    replace (truthy (VNumber 8)) with true by (vm_compute; reflexivity).
    reflexivity.
  - intros o v Hv. by apply buffer_mitreLimit_falsy.
  - vm_compute. reflexivity.
  - intros options. rewrite buffer_validate_dispatch.
    destruct geojson as [g|]; [|discriminate].
    destruct (validate _ _ _) as [p|e] eqn:Hval; cbn [bind].
    + intros H. apply dispatch_throws in H. discriminate H.
    + intros [= ->]. by apply validate_steps_error in Hval.
Qed.

(** [steps: -1] does trigger the error; the theorem gives back its sign. *)
Lemma buffer_falsy_numeric_options_witness :
  exists steps,
    VNumber (-1) = VNumber steps /\ PrimFloat.ltb steps 0 = true.
Proof.
  apply (proj2 (proj2 (proj2
           (buffer_falsy_numeric_options test_libraries
              (Some (GGeometry (point 0 0))) (VNumber 1))))
           (OptObject (with_steps empty_options (VNumber (-1))))).
  vm_compute. reflexivity.
Defined.

(** *** Detection of empty results *)

(** Induction on coordinates, with the hypothesis for every element of an
    array. *)
Lemma Coords_induction (P : Coords -> Prop) :
  (forall x, P (Num x)) ->
  (forall elements, Forall P elements -> P (Arr elements)) ->
  forall c, P c.
Proof.
  intros HNum HArr. fix IH 1. intros [x|elements]; [apply HNum|].
  apply HArr. induction elements as [|c elements IHelements];
    constructor; [apply IH | exact IHelements].
Qed.

Lemma coordsIsNaN_first_leaf c : coordsIsNaN c = js_isNaN (first_leaf c).
Proof.
  induction c as [x|elements IH] using Coords_induction; [reflexivity|].
  destruct IH as [|c0 elements Hc0 _]; [reflexivity|].
  destruct c0; [reflexivity | exact Hc0].
Qed.

Lemma bufferSimple_unfold L radius units steps endCapStyle joinStyle mitreLimit
    type coordinates properties :
  bufferSimple L radius units steps endCapStyle joinStyle mitreLimit
    type coordinates properties =
  let buffered :=
    buffered_geometry L radius units steps endCapStyle joinStyle mitreLimit
      type coordinates in
  if coordsIsNaN (sg_coordinates buffered) then None
  else Some (helpers_feature
               (SimpleGeometry (sg_type buffered)
                  (unprojectCoords (sg_coordinates buffered)
                     (defineProjection L (Geom type coordinates))))
               properties).
Proof. reflexivity. Qed.

(** [isNaN] of the first leaf: the leaf is NaN, or there is none. *)
Lemma js_isNaN_first_leaf c :
  js_isNaN (first_leaf c) = true <->
  first_leaf c = None \/ exists x, first_leaf c = Some x /\ PrimFloat.is_nan x = true.
Proof.
  destruct (first_leaf c) as [x|]; cbn.
  - split; [intros H; right; by exists x | intros [H|(y & [= <-] & H)]; done].
  - split; [by left | done].
Qed.

(** C9 (amended).  [coordsIsNaN] looks at the first leaf alone.  For a
    geometry with coordinates, [bufferFeature] returns [undefined] exactly
    when the value reached by descending first elements of the buffered
    coordinates is NaN or is missing (an empty array is reached, whose first
    element reads [undefined]); otherwise it returns the feature made of all
    the buffered coordinates, unprojected, whatever stands after the first
    leaf: a NaN in second place goes undetected. *)
Theorem coordsIsNaN_first_leaf_only L radius units steps endCapStyle joinStyle
    mitreLimit type coordinates :
  let buffered :=
    buffered_geometry L radius units steps endCapStyle joinStyle mitreLimit
      type coordinates in
  let returned :=
    bufferFeature L radius units steps endCapStyle joinStyle mitreLimit
      (ArgGeometry (Geom type coordinates)) in
  (forall c, coordsIsNaN c = js_isNaN (first_leaf c))
  /\ (returned = Ok None <->
      first_leaf (sg_coordinates buffered) = None
      \/ exists x, first_leaf (sg_coordinates buffered) = Some x
                   /\ PrimFloat.is_nan x = true)
  /\ (forall x, first_leaf (sg_coordinates buffered) = Some x ->
                PrimFloat.is_nan x = false ->
      returned =
      Ok (Some (helpers_feature
                  (SimpleGeometry (sg_type buffered)
                     (unprojectCoords (sg_coordinates buffered)
                        (defineProjection L (Geom type coordinates))))
                  ∅)))
  /\ (forall x rest more,
        PrimFloat.is_nan x = false ->
        coordsIsNaN (Arr (Arr (Num x :: Num nan :: rest) :: more)) = false).
Proof.
  cbv zeta. rewrite bufferFeature_Geom, bufferSimple_unfold. cbv zeta.
  rewrite <- js_isNaN_first_leaf, <- coordsIsNaN_first_leaf.
  split; [exact coordsIsNaN_first_leaf|].
  split; [|split].
  - destruct (coordsIsNaN _); split; congruence.
  - intros x Hx Hnan. rewrite coordsIsNaN_first_leaf, Hx. cbn. by rewrite Hnan.
  - intros x rest more Hx. cbn. exact Hx.
Qed.

(** A buffered ring [[x, NaN], ...] with [x] a number is kept, NaN and all. *)
Lemma coordsIsNaN_first_leaf_only_witness :
  bufferFeature test_libraries (VNumber 1) (VString "kilometers") 8 1 1 5
    (ArgGeometry (Geom Point (Arr [Num 0; Num 0]))) =
  Ok (Some (helpers_feature
              (SimpleGeometry Polygon
                 (Arr [Arr [Arr [Num 1; Num 8]; Arr [Num 5; Num nan];
                            Arr [Num 0; Num 0]]]))
              ∅)).
Proof.
  pose proof (coordsIsNaN_first_leaf_only test_libraries (VNumber 1)
                (VString "kilometers") 8 1 1 5 Point (Arr [Num 0; Num 0])) as H.
  cbv zeta in H. destruct H as (_ & _ & H & _).
  rewrite (H 1%float); vm_compute; reflexivity.
Defined.

(** C9 as stated fails: a buffered geometry with empty coordinates (what
    [ring_buffer] answers at distance 0) holds no NaN, and [bufferFeature]
    returns [undefined] for it. *)
Lemma empty_coordinates_dropped_without_NaN :
  ~ (forall L radius units steps endCapStyle joinStyle mitreLimit type coordinates,
       bufferFeature L radius units steps endCapStyle joinStyle mitreLimit
         (ArgGeometry (Geom type coordinates)) = Ok None <->
       exists x,
         first_leaf (sg_coordinates
                       (buffered_geometry L radius units steps endCapStyle
                          joinStyle mitreLimit type coordinates)) = Some x
         /\ PrimFloat.is_nan x = true)
  /\ coordsIsNaN (Arr []) = true
  /\ coordsIsNaN (Arr [Arr []]) = true.
Proof.
  split; [|split; reflexivity].
  intros H.
  destruct (proj1 (H test_libraries (VNumber 0) (VString "kilometers") 8%float
                     1%Z 1%Z 5%float Point (Arr [Num 0; Num 0])) eq_refl)
    as (x & Hx & _).
  vm_compute in Hx. discriminate Hx.
Qed.

(** *** Properties *)





(** *** Projection of nested coordinates *)

Lemma unprojectCoords_projectCoords_inverse coords proj :
  unprojectCoords coords proj = projectCoords coords (inverse_projection proj).
Proof.
  induction coords as [x|elements IH] using Coords_induction; [reflexivity|].
  destruct elements as [|[x|l] elements]; try reflexivity.
  cbn [unprojectCoords projectCoords]. f_equal.
  apply map_ext_Forall. exact IH.
Qed.

Section ProjectCoords.
Variable proj : GeoProjection.
Hypothesis forward_position : forall c, is_position (forward proj c) = true.

Lemma position_shape c : is_position c = true -> shape c = Leaf /\ leaves c = [c].
Proof. destruct c as [x|[|[x|l] elements]]; cbn; (discriminate || done). Qed.

Lemma projectCoords_Arr elements :
  exists elements', projectCoords (Arr elements) proj = Arr elements'.
Proof.
  destruct elements as [|[x|l] elements]; cbn [projectCoords];
    try (by eexists);
    match goal with |- context [forward proj ?c] =>
      pose proof (forward_position c) as H; destruct (forward proj c);
      [discriminate | by eexists]
    end.
Qed.

Lemma Forall_shape_leaves elements :
  Forall (fun coords =>
            shape (projectCoords coords proj) = shape coords
            /\ leaves (projectCoords coords proj) =
               List.map (forward proj) (leaves coords)) elements ->
  List.map shape (List.map (fun coord => projectCoords coord proj) elements) =
  List.map shape elements
  /\ flat_map leaves (List.map (fun coord => projectCoords coord proj) elements) =
     List.map (forward proj) (flat_map leaves elements).
Proof.
  induction 1 as [|c cs [Hs Hl] _ [IHs IHl]]; [done|].
  cbn. by rewrite Hs, Hl, IHs, IHl, map_app.
Qed.

Lemma projectCoords_shape_leaves coords :
  shape (projectCoords coords proj) = shape coords
  /\ leaves (projectCoords coords proj) = List.map (forward proj) (leaves coords).
Proof.
  induction coords as [x|elements IH] using Coords_induction.
  { cbn. by apply position_shape. }
  destruct elements as [|[x|l] elements];
    try (cbn; by apply position_shape).
  apply Forall_shape_leaves in IH as [Hs Hl].
  cbn [projectCoords].
  destruct (projectCoords_Arr l) as [l' Hl']. cbn [List.map]. rewrite Hl'.
  cbn [shape leaves]. rewrite <- Hl'.
  split; [f_equal; exact Hs | exact Hl].
Qed.
End ProjectCoords.

(** C6.  For a projection whose two transforms return positions,
    [projectCoords] keeps the nesting structure and applies [forward] to
    every leaf, [unprojectCoords] does so with [invert], and one after the
    other with the same projection applies [invert] after [forward] at every
    leaf.  [bufferFeature] projects and unprojects with one projection, the
    azimuthal equidistant one rotated to the center of the geometry. *)
Theorem projectCoords_unprojectCoords_structure L proj coords :
  (forall c, is_position (forward proj c) = true) ->
  (forall c, is_position (invert proj c) = true) ->
  (shape (projectCoords coords proj) = shape coords
   /\ leaves (projectCoords coords proj) = List.map (forward proj) (leaves coords))
  /\ (shape (unprojectCoords coords proj) = shape coords
      /\ leaves (unprojectCoords coords proj) = List.map (invert proj) (leaves coords))
  /\ (shape (unprojectCoords (projectCoords coords proj) proj) = shape coords
      /\ leaves (unprojectCoords (projectCoords coords proj) proj) =
         List.map (fun c => invert proj (forward proj c)) (leaves coords))
  /\ (forall radius units steps endCapStyle joinStyle mitreLimit type coordinates
             properties,
        let projection :=
          geoAzimuthalEquidistant L
            (PrimFloat.opp (fst (center L (Geom type coordinates))),
             PrimFloat.opp (snd (center L (Geom type coordinates))))
            (earthRadius L) in
        let buffered :=
          jsts_buffer L
            (SimpleGeometry type (projectCoords coordinates projection))
            {| quadrantSegments := steps; bp_endCapStyle := endCapStyle;
               bp_joinStyle := joinStyle; bp_mitreLimit := mitreLimit |}
            (radiansToLength L (lengthToRadians L radius units) "meters") in
        bufferFeature L radius units steps endCapStyle joinStyle mitreLimit
          (ArgFeature (mkFeature (Geom type coordinates) (Some properties))) =
        Ok (if coordsIsNaN (sg_coordinates buffered) then None
            else Some (helpers_feature
                         (SimpleGeometry (sg_type buffered)
                            (unprojectCoords (sg_coordinates buffered) projection))
                         properties))).
Proof.
  intros Hforward Hinvert.
  pose proof (projectCoords_shape_leaves proj Hforward) as Hp.
  assert (Hu : forall c,
             shape (unprojectCoords c proj) = shape c
             /\ leaves (unprojectCoords c proj) = List.map (invert proj) (leaves c)).
  { intros c. rewrite unprojectCoords_projectCoords_inverse.
    apply (projectCoords_shape_leaves (inverse_projection proj)). exact Hinvert. }
  split; [apply Hp|]. split; [apply Hu|]. split; [|reflexivity].
  destruct (Hu (projectCoords coords proj)) as [-> ->].
  destruct (Hp coords) as [-> ->].
  split; [reflexivity|]. by rewrite map_map.
Qed.

(** The shifting projection on a polygon ring. *)
Lemma projectCoords_unprojectCoords_structure_witness :
  leaves (unprojectCoords
            (projectCoords (Arr [Arr [Arr [Num 1; Num 2]; Arr [Num 3; Num 4]]])
               (shift_projection (10, 20)%float 1))
            (shift_projection (10, 20)%float 1)) =
  List.map (fun c => invert (shift_projection (10, 20)%float 1)
                       (forward (shift_projection (10, 20)%float 1) c))
    (leaves (Arr [Arr [Arr [Num 1; Num 2]; Arr [Num 3; Num 4]]])).
Proof.
  apply (projectCoords_unprojectCoords_structure test_libraries
           (shift_projection (10, 20)%float 1)
           (Arr [Arr [Arr [Num 1; Num 2]; Arr [Num 3; Num 4]]])).
  - intros [x|[|[x|l] [|[y|l'] [|c cs]]]]; reflexivity.
  - intros [x|[|[x|l] [|[y|l'] [|c cs]]]]; reflexivity.
Defined.

(** ** What a call does to the objects it is given *)

Module StoreFrame.
Import Store.
Local Open Scope store_scope.

Section Safe.
Variable σ0 : store.

Lemma safe_ret {A} (a : A) : safe σ0 (ret a).
Proof. intros σ H. exact H. Qed.

Lemma safe_raise {A} e : safe σ0 (@raise A e).
Proof. intros σ H. exact H. Qed.

Lemma safe_out_of_fuel {A} : safe σ0 (@out_of_fuel A).
Proof. intros σ H. exact H. Qed.

Lemma safe_read {A} (f : store -> A) : safe σ0 (read f).
Proof. intros σ H. exact H. Qed.

Lemma safe_call {A} (f : store -> result A) : safe σ0 (call f).
Proof. intros σ H. unfold call. by destruct (f σ). Qed.

Lemma safe_bind {A B} (m : M A) (k : A -> M B) :
  safe σ0 m -> (forall a, safe σ0 (k a)) -> safe σ0 (bind m k).
Proof.
  intros Hm Hk σ H. specialize (Hm σ H). unfold bind.
  destruct (m σ) as [[a|e|] σ']; cbn in *; [by apply Hk | done | done].
Qed.

Lemma alloc_fresh o σ :
  σ0 ⊆ σ -> σ0 !! fresh (dom σ) = None /\ σ0 ⊆ <[fresh (dom σ) := o]> σ.
Proof.
  intros H.
  assert (Hnone : σ !! fresh (dom σ) = None)
    by (apply not_elem_of_dom, is_fresh).
  assert (Hnone0 : σ0 !! fresh (dom σ) = None)
    by (eapply lookup_weaken_None; eassumption).
  split; [exact Hnone0|]. by apply insert_subseteq_r.
Qed.

Lemma safe_alloc o : safe σ0 (alloc o).
Proof. intros σ H. by apply alloc_fresh. Qed.

(** What follows an allocation may rely on the new location being none of
    [σ0]'s. *)
Lemma safe_bind_alloc {B} o (k : val -> M B) :
  (forall v, fresh_ref σ0 v -> safe σ0 (k v)) -> safe σ0 (bind (alloc o) k).
Proof.
  intros Hk σ H. unfold bind, alloc. cbn.
  destruct (alloc_fresh o σ H) as [Hnone Hsub].
  by apply (Hk (Ref (fresh (dom σ)))).
Qed.

(** [push] writes to its array only. *)
Lemma safe_push array v : fresh_ref σ0 array -> safe σ0 (push array v).
Proof.
  intros Hfresh σ H. unfold push.
  destruct array as [| | | | |l|]; try exact H.
  destruct (σ !! l) as [[fields|elements]|]; try exact H.
  cbn. by apply insert_subseteq_r.
Qed.

Lemma safe_get v name : safe σ0 (get v name).
Proof.
  intros σ H. unfold get.
  destruct v as [| | | | |l|]; try exact H.
  destruct (σ !! l) as [[fields|elements]|]; exact H.
Qed.

Lemma safe_index v i : safe σ0 (index v i).
Proof.
  intros σ H. unfold index.
  destruct v as [| | | | |l|]; try exact H.
  destruct (σ !! l) as [[fields|elements]|]; exact H.
Qed.

Lemma safe_length_of v : safe σ0 (length_of v).
Proof.
  intros σ H. unfold length_of.
  destruct v as [| | | | |l|]; try exact H.
  destruct (σ !! l) as [[fields|elements]|]; exact H.
Qed.

Lemma safe_isArray v : safe σ0 (isArray v).
Proof. apply safe_read. Qed.

Lemma safe_for_range from count body :
  (forall i, safe σ0 (body i)) -> safe σ0 (for_range from count body).
Proof.
  intros Hbody. revert from.
  induction count as [|count IH]; intros from; cbn [for_range].
  - apply safe_ret.
  - apply safe_bind; [apply Hbody | intros _; apply IH].
Qed.

Lemma safe_for_elements array callback :
  (forall x, safe σ0 (callback x)) -> safe σ0 (for_elements array callback).
Proof.
  intros Hcb. unfold for_elements.
  apply safe_bind; [apply safe_length_of | intros n].
  apply safe_for_range. intros i.
  apply safe_bind; [apply safe_index | exact Hcb].
Qed.

Lemma safe_map_range array from count callback mapped :
  (forall x, safe σ0 (callback x)) ->
  safe σ0 (map_range array from count callback mapped).
Proof.
  intros Hcb. revert from mapped.
  induction count as [|count IH]; intros from mapped; cbn [map_range].
  - apply safe_alloc.
  - apply safe_bind; [apply safe_index | intros x].
    apply safe_bind; [apply Hcb | intros y; apply IH].
Qed.

Lemma safe_array_map array callback :
  (forall x, safe σ0 (callback x)) -> safe σ0 (array_map array callback).
Proof.
  intros Hcb. unfold array_map.
  apply safe_bind; [apply safe_isArray | intros [|]].
  - apply safe_bind; [apply safe_length_of | intros n].
    by apply safe_map_range.
  - apply safe_raise.
Qed.
End Safe.

(** One step through a computation: a primitive, or a [bind]. *)
Ltac safe_step :=
  first
    [ apply safe_ret | apply safe_raise | apply safe_out_of_fuel
    | apply safe_read | apply safe_call | apply safe_get | apply safe_index
    | apply safe_length_of | apply safe_isArray | apply safe_alloc
    | apply safe_bind; [|intros ?] ].

Section SafeLibraries.
Variable σ0 : store.

Lemma safe_alloc_coords c : safe σ0 (alloc_coords c).
Proof.
  induction c as [x|elements IH] using Coords_induction; cbn [alloc_coords].
  - apply safe_ret.
  - apply safe_bind; [|intros vs; apply safe_alloc].
    induction IH as [|c cs Hc _ IHcs]; [apply safe_ret|].
    apply safe_bind; [exact Hc | intros v].
    apply safe_bind; [exact IHcs | intros vs; apply safe_ret].
Qed.

Lemma safe_alloc_geometry g : safe σ0 (alloc_geometry g).
Proof.
  unfold alloc_geometry.
  apply safe_bind; [apply safe_alloc_coords | intros v; apply safe_alloc].
Qed.

Lemma safe_helpers_feature geom properties :
  safe σ0 (helpers_feature geom properties).
Proof.
  unfold helpers_feature. apply safe_bind; [|intros v; apply safe_alloc].
  destruct (truthy properties); [apply safe_ret | apply safe_alloc].
Qed.

Lemma safe_helpers_featureCollection features :
  safe σ0 (helpers_featureCollection features).
Proof. apply safe_alloc. Qed.

Lemma safe_featureEach geojson callback :
  (forall x, safe σ0 (callback x)) -> safe σ0 (featureEach geojson callback).
Proof.
  intros Hcb. unfold featureEach. safe_step; [safe_step|].
  destruct (is_string _ "Feature"); [apply Hcb|].
  destruct (is_string _ "FeatureCollection"); [|apply safe_ret].
  safe_step; [safe_step|]. by apply safe_for_elements.
Qed.

Lemma safe_geomEach geojson callback :
  (forall x, safe σ0 (callback x)) -> safe σ0 (geomEach geojson callback).
Proof.
  intros Hcb. unfold geomEach. safe_step; [safe_step|].
  apply safe_bind; [destruct (is_string _ "Feature"); safe_step|].
  intros geometryMaybeCollection.
  assert (Hvisit : forall geometry,
            safe σ0 (match geometry with
                     | Null => callback Null
                     | _ =>
                         type <- get geometry "type" ;;
                         if is_geometry_type type then callback geometry
                         else if is_string type "GeometryCollection" then
                           geometries <- get geometry "geometries" ;;
                           for_elements geometries callback
                         else raise (Error "Unknown Geometry Type")
                     end)).
  { assert (Hgeneral : forall geometry,
              safe σ0 (type <- get geometry "type" ;;
                       if is_geometry_type type then callback geometry
                       else if is_string type "GeometryCollection" then
                         geometries <- get geometry "geometries" ;;
                         for_elements geometries callback
                       else raise (Error "Unknown Geometry Type"))).
    { intros geometry. safe_step; [safe_step|].
      destruct (is_geometry_type _); [apply Hcb|].
      destruct (is_string _ "GeometryCollection"); [|apply safe_raise].
      safe_step; [safe_step|]. by apply safe_for_elements. }
    intros []; first [apply Hcb | apply Hgeneral]. }
  destruct (truthy geometryMaybeCollection); [|apply Hvisit].
  safe_step; [safe_step|].
  destruct (is_string _ "GeometryCollection"); [|apply Hvisit].
  safe_step; [safe_step|]. by apply safe_for_elements.
Qed.

Variable L : Libraries.

Lemma safe_call_projection f coords : safe σ0 (call_projection f coords).
Proof.
  unfold call_projection.
  destruct coords; try apply safe_raise; (safe_step; [safe_step|safe_step]).
Qed.

Lemma safe_coordsIsNaN fuel coords : safe σ0 (coordsIsNaN L fuel coords).
Proof.
  revert coords. induction fuel as [|fuel IH]; intros coords; cbn [coordsIsNaN].
  - apply safe_out_of_fuel.
  - apply safe_bind; [apply safe_index | intros c0].
    apply safe_bind; [apply safe_isArray | intros [|]];
      [apply IH | apply safe_read].
Qed.

Lemma safe_projectCoords fuel coords proj :
  safe σ0 (projectCoords fuel coords proj).
Proof.
  revert coords. induction fuel as [|fuel IH]; intros coords; cbn [projectCoords].
  - apply safe_out_of_fuel.
  - apply safe_bind; [apply safe_index | intros c0].
    destruct (typeof c0);
      first [apply safe_call_projection | apply safe_array_map; intros x; apply IH].
Qed.

Lemma safe_unprojectCoords fuel coords proj :
  safe σ0 (unprojectCoords fuel coords proj).
Proof.
  revert coords. induction fuel as [|fuel IH]; intros coords; cbn [unprojectCoords].
  - apply safe_out_of_fuel.
  - apply safe_bind; [apply safe_index | intros c0].
    destruct (typeof c0);
      first [apply safe_call_projection | apply safe_array_map; intros x; apply IH].
Qed.

Lemma safe_defineProjection geojson : safe σ0 (defineProjection L geojson).
Proof. unfold defineProjection. repeat safe_step. Qed.

(** The callback of the three loops: [if (buffered) results.push(buffered)]
    on a [results] array that is none of [σ0]'s. *)
Lemma safe_push_if results buffered :
  fresh_ref σ0 results ->
  safe σ0 (if truthy buffered then push results buffered else ret tt).
Proof. intros H. destruct (truthy buffered); [by apply safe_push | apply safe_ret]. Qed.

Lemma safe_bufferFeature radius units steps endCapStyle joinStyle mitreLimit
    fuel geojson :
  safe σ0 (bufferFeature L radius units steps endCapStyle joinStyle mitreLimit
             fuel geojson).
Proof.
  revert geojson. induction fuel as [|fuel IH]; intros geojson; cbn [bufferFeature].
  - apply safe_out_of_fuel.
  - apply safe_bind; [apply safe_get | intros properties0].
    apply safe_bind; [destruct (truthy properties0); safe_step | intros properties].
    safe_step; [safe_step|].
    apply safe_bind; [destruct (is_string _ "Feature"); safe_step | intros geometry].
    safe_step; [safe_step|].
    destruct (is_string _ "GeometryCollection").
    + apply safe_bind_alloc. intros results Hresults.
      apply safe_bind; [|intros _; apply safe_helpers_featureCollection].
      apply safe_geomEach. intros x.
      apply safe_bind; [apply IH | intros buffered].
      by apply safe_push_if.
    + apply safe_bind; [apply safe_defineProjection | intros projection].
      safe_step; [safe_step|].
      apply safe_bind; [apply safe_projectCoords | intros projected_coordinates].
      safe_step; [safe_step|]. do 4 (safe_step; [safe_step|]).
      apply safe_bind; [apply safe_alloc_geometry | intros buffered].
      safe_step; [safe_step|].
      apply safe_bind; [apply safe_coordsIsNaN | intros [|]]; [apply safe_ret|].
      safe_step; [safe_step|].
      apply safe_bind; [apply safe_unprojectCoords | intros unprojected].
      safe_step; [safe_step|]. apply safe_helpers_feature.
Qed.
End SafeLibraries.

Lemma safe_buffer σ0 L fuel geojson radius options :
  safe σ0 (buffer L fuel geojson radius options).
Proof.
  unfold buffer.
  apply safe_bind; [destruct (truthy options); safe_step | intros options'].
  apply safe_bind; [apply safe_get | intros units].
  apply safe_bind; [apply safe_get | intros steps].
  apply safe_bind; [apply safe_get | intros endCapStyle].
  apply safe_bind; [apply safe_get | intros joinStyle].
  apply safe_bind; [apply safe_get | intros mitreLimit].
  destruct (negb (truthy geojson)); [apply safe_raise|].
  destruct (typeof options'); try apply safe_raise.
  destruct (js_or steps (Number 8)) as [| | |steps'| | |]; try apply safe_raise.
  clear steps. rename steps' into steps.
  apply safe_bind; [|clear endCapStyle; intros endCapStyle].
  { unfold switch_endCapStyle. repeat (destruct (is_string _ _); [apply safe_ret|]).
    apply safe_raise. }
  apply safe_bind; [|clear joinStyle; intros joinStyle].
  { unfold switch_joinStyle. repeat (destruct (is_string _ _); [apply safe_ret|]).
    apply safe_raise. }
  destruct (js_or mitreLimit (Number 5)) as [| | |mitreLimit'| | |];
    try apply safe_raise.
  clear mitreLimit. rename mitreLimit' into mitreLimit.
  assert (Hrest :
    safe σ0
      (if PrimFloat.leb steps 0 then raise (Error "steps must be greater than 0")
       else
         results <- alloc (Array []) ;;
         type <- get geojson "type" ;;
         if is_string type "GeometryCollection" then
           _ <- geomEach geojson (fun geometry =>
                  buffered <- bufferFeature L radius (js_or units (String "kilometers"))
                                steps endCapStyle joinStyle mitreLimit fuel
                                HelpersFeature ;;
                  if truthy buffered then push results buffered else ret tt) ;;
           helpers_featureCollection results
         else if is_string type "FeatureCollection" then
           _ <- featureEach geojson (fun feature =>
                  multiBuffered <- bufferFeature L radius
                                     (js_or units (String "kilometers")) steps
                                     endCapStyle joinStyle mitreLimit fuel feature ;;
                  if truthy multiBuffered then
                    featureEach multiBuffered (fun buffered =>
                      if truthy buffered then push results buffered else ret tt)
                  else ret tt) ;;
           helpers_featureCollection results
         else
           bufferFeature L radius (js_or units (String "kilometers")) steps
             endCapStyle joinStyle mitreLimit fuel geojson)).
  { destruct (PrimFloat.leb steps 0); [apply safe_raise|].
    apply safe_bind_alloc. intros results Hresults.
    safe_step; [safe_step|].
    destruct (is_string _ "GeometryCollection").
    { apply safe_bind; [|intros _; apply safe_helpers_featureCollection].
      apply safe_geomEach. intros geometry.
      apply safe_bind; [apply safe_bufferFeature | intros buffered].
      by apply safe_push_if. }
    destruct (is_string _ "FeatureCollection"); [|apply safe_bufferFeature].
    apply safe_bind; [|intros _; apply safe_helpers_featureCollection].
    apply safe_featureEach. intros feature.
    apply safe_bind; [apply safe_bufferFeature | intros multiBuffered].
    destruct (truthy multiBuffered); [|apply safe_ret].
    apply safe_featureEach. intros buffered. by apply safe_push_if. }
  destruct radius; first [apply safe_raise | exact Hrest].
Qed.

(** C7.  Whatever [geojson], [radius] and [options] are and however the
    call ends, every object that was in the store before a call of
    [buffer] is in the store after it, unchanged: the GeoJSON with its
    geometry and coordinate arrays and the options object are as the caller
    left them. *)
Theorem buffer_unchanged L fuel geojson radius options σ :
  unchanged σ (buffer L fuel geojson radius options σ).2.
Proof. apply safe_buffer. reflexivity. Qed.

(** Given [helpers.feature], [bufferFeature] reads no [properties], [type]
    or [coordinates]: it throws what [center] throws on the function, and
    when [center] returns it fails in [projectCoords], the [Throw TypeError]
    of the embedding over values. *)
Lemma bufferFeature_HelpersFeature L radius units steps endCapStyle joinStyle
    mitreLimit fuel σ :
  (bufferFeature L radius units steps endCapStyle joinStyle mitreLimit
     (S (S fuel)) HelpersFeature σ).1 =
  Raise (match center L (<[fresh (dom σ) := Obj ∅]> σ) HelpersFeature with
         | Ok _ => TypeError
         | Throw e => e
         end).
Proof.
  cbv -[fresh dom insert center].
  by destruct (center L _ HelpersFeature).
Qed.

(** A run on [test_store]: the FeatureCollection at location 5 is buffered
    into a new FeatureCollection whose member shares the [properties]
    object (location 2) of the input Feature; the top-level
    GeometryCollection at location 8 throws. *)
Lemma buffer_test_store :
  let run := buffer store_test_libraries 5 (Ref 5) (Number 1) (Ref 6) test_store in
  run.1 = Return (Ref 24)
  /\ run.2 !! 24 =
     Some (Obj {[ "type" := String "FeatureCollection"; "features" := Ref 9 ]})
  /\ run.2 !! 9 = Some (Array [Ref 23])
  /\ run.2 !! 23 =
     Some (Obj {[ "type" := String "Feature"; "properties" := Ref 2;
                  "geometry" := Ref 22 ]})
  /\ (buffer store_test_libraries 5 (Ref 8) (Number 1) (Ref 6) test_store).1 =
     Raise TypeError.
Proof. vm_compute. repeat split; reflexivity. Qed.
End StoreFrame.

(** ** The GeometryCollection branch of [buffer] *)

(** C2 (defect).  The GeometryCollection branch of [buffer] hands
    [helpers.feature], not the member geometry, to [bufferFeature]: with one
    member the call throws, whatever the libraries compute, where the same
    collection given to [bufferFeature] itself comes back as the
    FeatureCollection of its buffered members.  Over the store, where the
    libraries may throw, the call throws what [center] throws on the
    function, and when [center] returns the throw is the TypeError of
    [projectCoords] reading [coords[0]] of [undefined]. *)
Theorem buffer_GeometryCollection_throws L LS :
  buffer L
    (Some (GGeometry (GeometryCollection [SimpleGeometry Point (Arr [Num 0; Num 0])])))
    (VNumber 1) (OptOther VUndefined) = Throw TypeError
  /\ bufferFeature_with L (VNumber 1) default_parameters
       (ArgGeometry (GeometryCollection [SimpleGeometry Point (Arr [Num 0; Num 0])])) =
     Ok (Some (helpers_featureCollection
                 (omap (fun g => bufferSimple L (VNumber 1) (VString "kilometers")
                                   8 1 1 5 (sg_type g) (sg_coordinates g) ∅)
                       [SimpleGeometry Point (Arr [Num 0; Num 0])])))
  /\ (Store.buffer LS 5 (Store.Ref 8) (Store.Number 1) Store.Undefined test_store).1 =
     Store.Raise
       (match Store.center LS
                (<[11 := Store.Obj ∅]>
                   (<[10 := Store.Array []]> (<[9 := Store.Obj ∅]> test_store)))
                Store.HelpersFeature with
        | Ok _ => TypeError
        | Throw e => e
        end).
Proof.
  split; [|split].
  - rewrite buffer_validate_dispatch.
    replace (validate _ _ _) with (Ok default_parameters) by (vm_compute; reflexivity).
    reflexivity.
  - unfold bufferFeature_with. apply bufferFeature_collection. by left.
  - destruct LS as [center ? ? ? ? ? ? ? ?]. vm_compute.
    destruct (center _ Store.HelpersFeature); reflexivity.
Qed.

(** * Further properties of [index.js] *)

(** ** Projection round trip *)

Lemma unprojectCoords_position c proj :
  is_position c = true -> unprojectCoords c proj = invert proj c.
Proof. destruct c as [x|[|[x|l] elements]]; cbn; (discriminate || done). Qed.

(** X1.  When the projection returns positions and [invert] undoes
    [forward] on every leaf of [coords], [unprojectCoords] undoes
    [projectCoords]: the coordinate array comes back as it was, at every
    depth. *)
Theorem unprojectCoords_projectCoords_roundtrip proj coords :
  (forall c, is_position (forward proj c) = true) ->
  Forall (fun leaf => invert proj (forward proj leaf) = leaf) (leaves coords) ->
  unprojectCoords (projectCoords coords proj) proj = coords.
Proof.
  intros Hposition.
  induction coords as [x|elements IH] using Coords_induction; intros Hleaves.
  - cbn in *. rewrite unprojectCoords_position by apply Hposition.
    by inversion Hleaves.
  - destruct elements as [|[x|l] elements];
      try (cbn in *; rewrite unprojectCoords_position by apply Hposition;
           by inversion Hleaves).
    cbn [projectCoords]. cbn [List.map].
    destruct (projectCoords_Arr proj Hposition l) as [l' Hl']. rewrite Hl'.
    cbn [unprojectCoords]. rewrite <- Hl'. f_equal.
    change (List.map (fun coord => unprojectCoords coord proj)
              (List.map (fun coord => projectCoords coord proj) (Arr l :: elements))
            = Arr l :: elements).
    cbn [leaves] in Hleaves.
    revert IH Hleaves. generalize (Arr l :: elements). clear.
    intros cs IH. induction IH as [|c cs Hc _ IHcs]; intros Hleaves; [reflexivity|].
    cbn [flat_map] in Hleaves. apply Forall_app in Hleaves as [Hc' Hcs'].
    cbn [List.map]. by rewrite Hc, IHcs.
Qed.

(** A polygon ring through the shifting projection. *)
Lemma unprojectCoords_projectCoords_roundtrip_witness :
  unprojectCoords
    (projectCoords (Arr [Arr [Arr [Num 1; Num 2]; Arr [Num 3; Num 4]]])
       (shift_projection (10, 20)%float 1))
    (shift_projection (10, 20)%float 1) =
  Arr [Arr [Arr [Num 1; Num 2]; Arr [Num 3; Num 4]]].
Proof.
  apply (unprojectCoords_projectCoords_roundtrip
           (shift_projection (10, 20)%float 1)
           (Arr [Arr [Arr [Num 1; Num 2]; Arr [Num 3; Num 4]]])).
  - intros [x|[|[x|l] [|[y|l'] [|c cs]]]]; reflexivity.
  - repeat constructor.
Defined.

(** ** Validation *)

(** [validate] throws the error of the first check that fails. *)
Lemma validate_first_error g radius options :
  match first_error radius options with
  | Some e => validate (Some g) radius options = Throw e
  | None => exists p, validate (Some g) radius options = Ok p
  end.
Proof.
  unfold first_error, validate.
  destruct (options_typeof _); try reflexivity.
  destruct (js_or (o_steps _) _) as [| | |steps| | |]; try reflexivity.
  pose proof (switch_endCapStyle_valid
                (js_or (o_endCapStyle (options_fields (effective_options options)))
                   (VString "round"))) as Hcap.
  pose proof (switch_joinStyle_valid
                (js_or (o_joinStyle (options_fields (effective_options options)))
                   (VString "round"))) as Hjoin.
  destruct (valid_endCapStyle _); cbn [negb]; [|by rewrite Hcap].
  destruct Hcap as [cap ->]. cbn [bind].
  destruct (valid_joinStyle _); cbn [negb]; [|by rewrite Hjoin].
  destruct Hjoin as [join ->]. cbn [bind].
  destruct (js_or (o_mitreLimit _) _) as [| | |mitreLimit| | |];
    cbn [is_number negb]; try reflexivity.
  destruct radius; cbn [is_undefined]; try reflexivity;
    (destruct (PrimFloat.leb steps 0); [reflexivity | by eexists]).
Qed.

(** [buffer] in terms of the first failing check. *)
Lemma buffer_first_error L g radius options :
  match first_error radius options with
  | Some e => buffer L (Some g) radius options = Throw e
  | None => exists p, validate (Some g) radius options = Ok p
                      /\ buffer L (Some g) radius options = dispatch L radius p g
  end.
Proof.
  pose proof (validate_first_error g radius options) as H.
  rewrite buffer_validate_dispatch.
  destruct (first_error radius options) as [e|]; [by rewrite H|].
  destruct H as [p Hp]. exists p. by rewrite Hp.
Qed.

(** X5.  A call without [radius] never returns and never reports the
    range of [steps]: it throws "radius is required", unless a check made
    earlier fails, whose error the call then throws for every radius.  A
    call with any other radius, 0 and [null] included, never throws
    "radius is required". *)
Theorem buffer_radius_undefined L g options :
  (exists e,
     buffer L (Some g) VUndefined options = Throw e
     /\ (e = radius_error
         \/ (e <> steps_error
             /\ forall L' radius, buffer L' (Some g) radius options = Throw e)))
  /\ (forall radius, radius <> VUndefined ->
        buffer L (Some g) radius options <> Throw radius_error).
Proof.
  assert (Hsame : forall radius e,
            first_error VUndefined options = Some e -> e <> radius_error ->
            first_error radius options = Some e).
  { unfold first_error. intros radius e.
    repeat (case_match; try discriminate); try done;
      intros [= <-] He; done. }
  split.
  - pose proof (buffer_first_error L g VUndefined options) as H.
    destruct (first_error VUndefined options) as [e|] eqn:He in H.
    + exists e. split; [exact H|].
      destruct (decide (e = radius_error)) as [->|Hne]; [by left|right].
      split.
      * intros ->. revert He. unfold first_error.
        repeat (case_match; try discriminate).
      * intros L' radius.
        pose proof (buffer_first_error L' g radius options) as H'.
        by rewrite (Hsame radius e He Hne) in H'.
    + exfalso. revert He. unfold first_error.
      repeat (case_match; try discriminate).
  - intros radius Hradius Hthrow.
    pose proof (buffer_first_error L g radius options) as H.
    destruct (first_error radius options) as [e|] eqn:He.
    + rewrite H in Hthrow. injection Hthrow as ->. revert He. unfold first_error.
      repeat (case_match; try discriminate); try (intros [= ?]; discriminate).
      destruct radius; done.
    + destruct H as (p & _ & Hb). rewrite Hb in Hthrow.
      apply dispatch_throws in Hthrow. discriminate Hthrow.
Qed.

(** Discharges a first failing check that would throw a different
    error, and the case where all checks pass. *)
Ltac other_first_error H :=
  revert H;
  unfold options_error, steps_type_error, endCapStyle_error, joinStyle_error,
    mitreLimit_error, radius_error, steps_error;
  repeat case_match; simplify_eq; try discriminate;
  let p := fresh "p" in
  let Hd := fresh "Hd" in
  intros (p & _ & Hd); symmetry in Hd;
  apply dispatch_throws in Hd; discriminate Hd.

(** X6.  Any falsy [options] argument ([undefined], [null], [false], 0,
    the empty string) is the call made with [{}].  With a GeoJSON given,
    "options must be an object" is thrown exactly for a truthy argument
    that is not of type object, a function included. *)
Theorem buffer_options_argument L geojson radius :
  (forall v, truthy v = false ->
     buffer L geojson radius (OptOther v) =
     buffer L geojson radius (OptObject empty_options))
  /\ (forall g options,
        buffer L (Some g) radius options = Throw options_error <->
        options_truthy options = true /\ options_typeof options <> TObject).
Proof.
  split.
  - intros v Hv. unfold buffer. cbn [options_truthy]. by rewrite Hv.
  - intros g options.
    pose proof (buffer_first_error L g radius options) as H.
    unfold first_error, effective_options in H. split.
    + intros Hthrow. rewrite Hthrow in H.
      destruct (options_truthy options) eqn:Htruthy.
      * split; [reflexivity|]. intros Htype. rewrite Htype in H.
        other_first_error H.
      * exfalso. cbn [options_typeof] in H.
        other_first_error H.
    + intros [Htruthy Htype]. rewrite Htruthy in H.
      destruct (options_typeof options); done.
Qed.

(** X7.  With a GeoJSON and an options object given, "steps must be a
    number" is thrown exactly when [steps] is truthy and not of type
    number: a numeric string is rejected, not converted. *)
Theorem buffer_steps_type L g radius o :
  buffer L (Some g) radius (OptObject o) = Throw steps_type_error <->
  truthy (o_steps o) = true /\ typeof (o_steps o) <> TNumber.
Proof.
  pose proof (buffer_first_error L g radius (OptObject o)) as H.
  unfold first_error, effective_options, js_or in H.
  cbn [options_truthy options_typeof options_fields] in H. split.
  - intros Hthrow. rewrite Hthrow in H.
    destruct (truthy (o_steps o)) eqn:Htruthy.
    + split; [reflexivity|]. intros Htype.
      destruct (o_steps o); try discriminate Htype.
      other_first_error H.
    + exfalso. other_first_error H.
  - intros [Htruthy Htype]. rewrite Htruthy in H.
    destruct (o_steps o); done.
Qed.

(** ** What a call returns, over the store *)

Module StoreProperties.
Import Store StoreFrame.
Local Open Scope store_scope.

Section Triple.
Variable σ0 : store.

Lemma triple_ret {A} (a : A) (Q : A -> store -> Prop) :
  (forall σ, unchanged σ0 σ -> Q a σ) -> triple σ0 (ret a) Q.
Proof. intros HQ σ H. split; [exact H|]. intros a' [= <-]. by apply HQ. Qed.

Lemma triple_raise {A} e (Q : A -> store -> Prop) : triple σ0 (raise e) Q.
Proof. intros σ H. split; [exact H | discriminate]. Qed.

Lemma triple_out_of_fuel {A} (Q : A -> store -> Prop) : triple σ0 out_of_fuel Q.
Proof. intros σ H. split; [exact H | discriminate]. Qed.

Lemma triple_weaken {A} (m : M A) (Q Q' : A -> store -> Prop) :
  triple σ0 m Q -> (forall a σ, Q a σ -> Q' a σ) -> triple σ0 m Q'.
Proof.
  intros Hm HQ σ H. destruct (Hm σ H) as [Hsafe Hpost].
  split; [exact Hsafe|]. intros a Ha. by apply HQ, Hpost.
Qed.

Lemma triple_safe {A} (m : M A) (Q : A -> store -> Prop) :
  triple σ0 m Q -> safe σ0 m.
Proof. intros Hm σ H. by apply Hm. Qed.

(** A computation that leaves the old objects alone, then one that
    establishes [Q]. *)
Lemma triple_bind {A B} (m : M A) (k : A -> M B) (Q : B -> store -> Prop) :
  safe σ0 m -> (forall a, triple σ0 (k a) Q) -> triple σ0 (bind m k) Q.
Proof.
  intros Hm Hk σ H. specialize (Hm σ H). unfold bind.
  destruct (m σ) as [[a|e|] σ']; cbn in *.
  - by apply Hk.
  - split; [exact Hm | discriminate].
  - split; [exact Hm | discriminate].
Qed.

Lemma triple_alloc o :
  triple σ0 (alloc o)
    (fun v σ' => exists l, v = Ref l /\ σ0 !! l = None /\ σ' !! l = Some o).
Proof.
  intros σ H. destruct (alloc_fresh σ0 o σ H) as [Hnone Hsub].
  split; [exact Hsub|]. intros a [= <-]. eexists. split; [reflexivity|].
  split; [exact Hnone|]. cbn. apply lookup_insert_eq.
Qed.

Lemma triple_bind_alloc {B} o (k : val -> M B) (Q : B -> store -> Prop) :
  (forall v, fresh_ref σ0 v -> triple σ0 (k v) Q) -> triple σ0 (bind (alloc o) k) Q.
Proof.
  intros Hk σ H. unfold bind, alloc. cbn.
  destruct (alloc_fresh σ0 o σ H) as [Hnone Hsub].
  by apply (Hk (Ref (fresh (dom σ)))).
Qed.

Lemma triple_alloc_new o : triple σ0 (alloc o) (new_object σ0).
Proof.
  eapply triple_weaken; [apply triple_alloc|].
  intros v σ (l & -> & Hnone & Hl). right. exists l. by rewrite Hl.
Qed.

Lemma triple_helpers_feature geom properties :
  triple σ0 (helpers_feature geom properties) (new_object σ0).
Proof.
  unfold helpers_feature. apply triple_bind.
  - destruct (truthy properties); [apply safe_ret | apply safe_alloc].
  - intros properties'. apply triple_alloc_new.
Qed.

Lemma triple_bufferFeature L radius units steps endCapStyle joinStyle mitreLimit
    fuel geojson :
  triple σ0
    (bufferFeature L radius units steps endCapStyle joinStyle mitreLimit fuel geojson)
    (new_object σ0).
Proof.
  destruct fuel as [|fuel]; cbn [bufferFeature]; [apply triple_out_of_fuel|].
  apply triple_bind; [apply safe_get | intros properties0].
  apply triple_bind; [destruct (truthy properties0); safe_step | intros properties].
  apply triple_bind; [apply safe_get | intros type].
  apply triple_bind; [destruct (is_string _ "Feature"); safe_step | intros geometry].
  apply triple_bind; [apply safe_get | intros geometry_type].
  destruct (is_string _ "GeometryCollection").
  - apply triple_bind_alloc. intros results Hresults.
    apply triple_bind; [|intros _; apply triple_alloc_new].
    apply safe_geomEach. intros x.
    apply safe_bind; [apply safe_bufferFeature | intros buffered].
    by apply safe_push_if.
  - apply triple_bind; [apply safe_defineProjection | intros projection].
    apply triple_bind; [apply safe_get | intros coordinates].
    apply triple_bind; [apply safe_projectCoords | intros projected_coordinates].
    apply triple_bind; [apply safe_alloc | intros projected].
    do 3 (apply triple_bind; [apply safe_call | intros ?]).
    apply triple_bind; [apply safe_call | intros written].
    apply triple_bind; [apply safe_alloc_geometry | intros buffered].
    apply triple_bind; [apply safe_get | intros buffered_coordinates].
    apply triple_bind; [apply safe_coordsIsNaN | intros [|]].
    + apply triple_ret. intros σ _. by left.
    + apply triple_bind; [apply safe_get | intros buffered_type].
      apply triple_bind; [apply safe_unprojectCoords | intros unprojected].
      apply triple_bind; [apply safe_alloc | intros result].
      apply triple_helpers_feature.
Qed.

Lemma triple_buffer L fuel geojson radius options :
  triple σ0 (buffer L fuel geojson radius options) (new_object σ0).
Proof.
  unfold buffer.
  apply triple_bind; [destruct (truthy options); safe_step | intros options'].
  apply triple_bind; [apply safe_get | intros units].
  apply triple_bind; [apply safe_get | intros steps].
  apply triple_bind; [apply safe_get | intros endCapStyle].
  apply triple_bind; [apply safe_get | intros joinStyle].
  apply triple_bind; [apply safe_get | intros mitreLimit].
  destruct (negb (truthy geojson)); [apply triple_raise|].
  destruct (typeof options'); try apply triple_raise.
  destruct (js_or steps (Number 8)) as [| | |steps'| | |]; try apply triple_raise.
  apply triple_bind; [|intros endCapStyle'].
  { unfold switch_endCapStyle. repeat (destruct (is_string _ _); [apply safe_ret|]).
    apply safe_raise. }
  apply triple_bind; [|intros joinStyle'].
  { unfold switch_joinStyle. repeat (destruct (is_string _ _); [apply safe_ret|]).
    apply safe_raise. }
  destruct (js_or mitreLimit (Number 5)) as [| | |mitreLimit'| | |];
    try apply triple_raise.
  destruct radius; try apply triple_raise;
    (destruct (PrimFloat.leb steps' 0); [apply triple_raise|]);
    (apply triple_bind_alloc; intros results Hresults);
    (apply triple_bind; [apply safe_get | intros type]);
    (destruct (is_string type "GeometryCollection");
     [apply triple_bind; [|intros _; apply triple_alloc_new];
      apply safe_geomEach; intros geometry;
      apply safe_bind; [apply safe_bufferFeature | intros buffered];
      by apply safe_push_if|]);
    (destruct (is_string type "FeatureCollection");
     [apply triple_bind; [|intros _; apply triple_alloc_new];
      apply safe_featureEach; intros feature;
      apply safe_bind; [apply safe_bufferFeature | intros multiBuffered];
      (destruct (truthy multiBuffered); [|apply safe_ret]);
      apply safe_featureEach; intros buffered; by apply safe_push_if
     |apply triple_bufferFeature]).
Qed.
End Triple.

(** X9.  Whatever [buffer] returns is [undefined] or an object created by
    the call: never the GeoJSON it was given, nor any other object that
    existed before. *)
Theorem buffer_returns_new_object L fuel geojson radius options σ v :
  (buffer L fuel geojson radius options σ).1 = Return v ->
  v = Undefined
  \/ exists l, v = Ref l /\ σ !! l = None
               /\ is_Some ((buffer L fuel geojson radius options σ).2 !! l).
Proof.
  intros Hv.
  destruct (triple_buffer σ L fuel geojson radius options σ) as [_ Hnew];
    [reflexivity|].
  exact (Hnew v Hv).
Qed.

(** The FeatureCollection of [test_store]: the result is at a new
    location. *)
Lemma buffer_returns_new_object_witness :
  Ref 24 = Undefined
  \/ exists l, Ref 24 = Ref l /\ test_store !! l = None
               /\ is_Some ((buffer store_test_libraries 5 (Ref 5) (Number 1) (Ref 6)
                              test_store).2 !! l).
Proof.
  apply (buffer_returns_new_object store_test_libraries 5 (Ref 5) (Number 1) (Ref 6)
           test_store (Ref 24)).
  vm_compute. reflexivity.
Defined.

(** *** The properties object *)

Lemma triple_bind_get σ0 {B} g fields name (k : val -> M B) Q :
  σ0 !! g = Some (Obj fields) ->
  triple σ0 (k (default Undefined (fields !! name))) Q ->
  triple σ0 (bind (get (Ref g) name) k) Q.
Proof.
  intros Hg Hk σ H. unfold bind, get.
  rewrite (lookup_weaken _ _ _ _ Hg H). by apply Hk.
Qed.

Lemma triple_bind_ret σ0 {A B} (a : A) (k : A -> M B) Q :
  triple σ0 (k a) Q -> triple σ0 (bind (ret a) k) Q.
Proof. intros Hk σ H. exact (Hk σ H). Qed.

Lemma triple_feature σ0 geom p :
  truthy p = true ->
  triple σ0 (helpers_feature geom p) (feature_with_properties p).
Proof.
  intros Hp. unfold helpers_feature. rewrite Hp. intros σ H.
  destruct (alloc_fresh σ0
              (Obj {[ "type" := String "Feature"; "properties" := p;
                      "geometry" := geom ]}) σ H) as [_ Hsub].
  split; [exact Hsub|]. intros a [= <-]. cbn. eexists.
  split; [apply lookup_insert_eq|]. right. split; reflexivity.
Qed.

Lemma triple_featureCollection σ0 features p :
  triple σ0 (helpers_featureCollection features) (feature_with_properties p).
Proof.
  intros σ H. unfold helpers_featureCollection.
  destruct (alloc_fresh σ0
              (Obj {[ "type" := String "FeatureCollection";
                      "features" := features ]}) σ H) as [_ Hsub].
  split; [exact Hsub|]. intros a [= <-]. cbn. eexists.
  split; [apply lookup_insert_eq|]. by left.
Qed.

Lemma triple_bufferFeature_properties σ0 L radius units steps endCapStyle
    joinStyle mitreLimit fuel g fields p :
  σ0 !! g = Some (Obj fields) -> fields !! "properties" = Some p ->
  truthy p = true ->
  triple σ0
    (bufferFeature L radius units steps endCapStyle joinStyle mitreLimit fuel (Ref g))
    (feature_with_properties p).
Proof.
  intros Hg Hfields Hp.
  destruct fuel as [|fuel]; cbn [bufferFeature]; [apply triple_out_of_fuel|].
  eapply triple_bind_get; [exact Hg|]. rewrite Hfields. cbn [default]. cbv beta.
  unfold id. rewrite Hp. apply triple_bind_ret.
  apply triple_bind; [apply safe_get | intros type].
  apply triple_bind; [destruct (is_string _ "Feature"); safe_step | intros geometry].
  apply triple_bind; [apply safe_get | intros geometry_type].
  destruct (is_string _ "GeometryCollection").
  - apply triple_bind_alloc. intros results Hresults.
    apply triple_bind; [|intros _; apply triple_featureCollection].
    apply safe_geomEach. intros x.
    apply safe_bind; [apply safe_bufferFeature | intros buffered].
    by apply safe_push_if.
  - apply triple_bind; [apply safe_defineProjection | intros projection].
    apply triple_bind; [apply safe_get | intros coordinates].
    apply triple_bind; [apply safe_projectCoords | intros projected_coordinates].
    apply triple_bind; [apply safe_alloc | intros projected].
    do 3 (apply triple_bind; [apply safe_call | intros ?]).
    apply triple_bind; [apply safe_call | intros written].
    apply triple_bind; [apply safe_alloc_geometry | intros buffered].
    apply triple_bind; [apply safe_get | intros buffered_coordinates].
    apply triple_bind; [apply safe_coordsIsNaN | intros [|]].
    + by apply triple_ret.
    + apply triple_bind; [apply safe_get | intros buffered_type].
      apply triple_bind; [apply safe_unprojectCoords | intros unprojected].
      apply triple_bind; [apply safe_alloc | intros result].
      by apply triple_feature.
Qed.

(** X10.  Given a Feature whose [properties] is an object (or any truthy
    value), a Feature that [bufferFeature] returns has that very value as
    its [properties]: the object is shared with the input, not copied.
    (The other object it can return is the FeatureCollection of the
    GeometryCollection branch.) *)
Theorem bufferFeature_shares_properties L radius units steps endCapStyle
    joinStyle mitreLimit fuel g fields p σ l :
  σ !! g = Some (Obj fields) ->
  fields !! "properties" = Some p ->
  truthy p = true ->
  (bufferFeature L radius units steps endCapStyle joinStyle mitreLimit fuel
     (Ref g) σ).1 = Return (Ref l) ->
  exists fields',
    (bufferFeature L radius units steps endCapStyle joinStyle mitreLimit fuel
       (Ref g) σ).2 !! l = Some (Obj fields')
    /\ (fields' !! "type" = Some (String "FeatureCollection")
        \/ (fields' !! "type" = Some (String "Feature")
            /\ fields' !! "properties" = Some p)).
Proof.
  intros Hg Hfields Hp Hl.
  destruct (triple_bufferFeature_properties σ L radius units steps endCapStyle
              joinStyle mitreLimit fuel g fields p Hg Hfields Hp σ) as [_ Hpost];
    [reflexivity|].
  exact (Hpost (Ref l) Hl).
Qed.

(** The Feature of [test_store], whose properties are the object at 2. *)
Lemma bufferFeature_shares_properties_witness :
  exists fields',
    (bufferFeature store_test_libraries (Number 1) (String "kilometers") 8 1 1 5 5
       (Ref 3) test_store).2 !! 22 = Some (Obj fields')
    /\ (fields' !! "type" = Some (String "FeatureCollection")
        \/ (fields' !! "type" = Some (String "Feature")
            /\ fields' !! "properties" = Some (Ref 2))).
Proof.
  apply (bufferFeature_shares_properties store_test_libraries (Number 1)
           (String "kilometers") 8 1 1 5 5 3
           {[ "type" := String "Feature"; "properties" := Ref 2;
              "geometry" := Ref 1 ]} (Ref 2) test_store 22);
    vm_compute; reflexivity.
Defined.

(** *** The interop helper *)

Lemma interopDefaultLegacy_cases e σ :
  (exists l fields,
     e = Ref l /\ σ !! l = Some (Obj fields) /\ is_Some (fields !! "default")
     /\ _interopDefaultLegacy e σ = (Return e, σ))
  \/ _interopDefaultLegacy e σ = alloc (Obj {[ "default" := e ]}) σ.
Proof.
  unfold _interopDefaultLegacy.
  destruct (truthy e) eqn:Htruthy; [|by right].
  destruct e as [| | | | |l|]; try (by right).
  cbn [typeof]. unfold bind, has_property, read.
  destruct (σ !! l) as [[fields|elements]|] eqn:Hl; try (by right).
  destruct (decide (is_Some (fields !! "default"))) as [Hdefault|Hdefault].
  - rewrite bool_decide_eq_true_2 by exact Hdefault. left. by exists l, fields.
  - rewrite bool_decide_eq_false_2 by exact Hdefault. by right.
Qed.

(** X11.  [_interopDefaultLegacy] always returns an object that has a
    [default] property: the argument itself when it is an object with one,
    and otherwise a new object whose [default] is the argument (a function,
    a primitive, [null], an array or an object without [default]).  No
    existing object changes, and the helper applied to its result returns
    that result again without creating anything. *)
Theorem interopDefaultLegacy_default e σ :
  exists l fields,
    (_interopDefaultLegacy e σ).1 = Return (Ref l)
    /\ (_interopDefaultLegacy e σ).2 !! l = Some (Obj fields)
    /\ is_Some (fields !! "default")
    /\ unchanged σ (_interopDefaultLegacy e σ).2
    /\ (e = Ref l /\ (_interopDefaultLegacy e σ).2 = σ
        \/ σ !! l = None /\ fields = {[ "default" := e ]})
    /\ _interopDefaultLegacy (Ref l) (_interopDefaultLegacy e σ).2 =
       (Return (Ref l), (_interopDefaultLegacy e σ).2).
Proof.
  destruct (interopDefaultLegacy_cases e σ)
    as [(l & fields & -> & Hl & Hdefault & Heq)|Heq]; rewrite Heq.
  - exists l, fields. cbn. split; [reflexivity|]. split; [exact Hl|].
    split; [exact Hdefault|]. split; [reflexivity|]. split; [by left|].
    exact Heq.
  - destruct (alloc_fresh σ (Obj {[ "default" := e ]}) σ) as [Hnone Hsub];
      [reflexivity|].
    exists (fresh (dom σ)), {[ "default" := e ]}. cbn.
    split; [reflexivity|]. split; [apply lookup_insert_eq|].
    split; [by rewrite lookup_singleton_eq|]. split; [exact Hsub|].
    split; [by right|].
    unfold _interopDefaultLegacy, bind, has_property, read. cbn.
    rewrite lookup_insert_eq, lookup_singleton_eq.
    by rewrite bool_decide_eq_true_2 by by eexists.
Qed.
End StoreProperties.

(** ** Stored coordinates and coordinates by value *)

Module StoreRefinement.

Lemma represents_Arr σ v elements :
  Store.represents σ v (Arr elements) <->
  exists l vs,
    v = Store.Ref l /\ σ !! l = Some (Store.Array vs)
    /\ Forall2 (Store.represents σ) vs elements.
Proof.
  cbn [Store.represents].
  assert (Hall : forall cs vs,
            (fix all (cs : list Coords) (vs : list Store.val) {struct cs} : Prop :=
               match cs, vs with
               | [], [] => True
               | c :: cs', v :: vs' => Store.represents σ v c /\ all cs' vs'
               | _, _ => False
               end) cs vs <-> Forall2 (Store.represents σ) vs cs).
  { induction cs as [|c cs IH]; intros [|v' vs]; split;
      try done; try (by inversion 1).
    - intros [Hc Hcs]. constructor; [exact Hc | by apply IH].
    - inversion 1; subst. split; [done | by apply IH]. }
  split; intros (l & vs & Hv & Hl & H); exists l, vs; by rewrite ?Hall in *.
Qed.

(** A value keeps representing what it represents when the store grows. *)
Lemma represents_unchanged σ σ' v c :
  Store.unchanged σ σ' -> Store.represents σ v c -> Store.represents σ' v c.
Proof.
  intros Hsub. revert v.
  induction c as [x|elements IH] using Coords_induction; intros v; [done|].
  rewrite !represents_Arr. intros (l & vs & -> & Hl & Hvs).
  exists l, vs. split; [reflexivity|].
  split; [by eapply lookup_weaken|].
  clear Hl. induction Hvs as [|v' c vs cs Hc _ IHvs]; [constructor|].
  inversion IH; subst. constructor; [by auto | by apply IHvs].
Qed.

Section CoordsIsNaN.
Variable L : Store.Libraries.

(** X12.  On a stored coordinate array, [coordsIsNaN] returns once its
    fuel exceeds the nesting met by descending first elements; it leaves
    the store as it is and answers what [coordsIsNaN] answers on the
    coordinates by value. *)
Theorem coordsIsNaN_represents σ v c fuel :
  Store.represents σ v c ->
  Store.first_depth c < fuel ->
  Store.coordsIsNaN L fuel v σ = (Store.Return (coordsIsNaN c), σ).
Proof.
  revert v fuel.
  induction c as [x|elements IH] using Coords_induction; intros v fuel Hv Hfuel.
  - cbn in Hv. subst v. destruct fuel as [|fuel]; [lia|]. reflexivity.
  - apply represents_Arr in Hv as (l & vs & -> & Hl & Hvs).
    destruct fuel as [|fuel]; [lia|].
    cbn [Store.coordsIsNaN]. unfold Store.bind, Store.index. rewrite Hl.
    destruct Hvs as [|v0 c0 vs cs Hc0 Hcs]; [reflexivity|].
    cbn [lookup list_lookup default from_option id].
    inversion IH as [|? ? IHc0 _]; subst.
    destruct c0 as [x|elements0].
    + cbn in Hc0. subst v0. reflexivity.
    + pose proof Hc0 as Hc0'.
      apply represents_Arr in Hc0' as (l0 & vs0 & -> & Hl0 & _).
      unfold Store.isArray, Store.read. cbn. rewrite Hl0.
      apply IHc0; [exact Hc0|].
      change (S (Store.first_depth (Arr elements0)) < S fuel) in Hfuel. lia.
Qed.
End CoordsIsNaN.

Lemma represents_line_store :
  Store.represents line_store (Store.Ref 2) (Arr [Arr [Num 1; Num 2]; Arr [Num 3; Num 4]]).
Proof.
  eexists 2, _. split; [reflexivity|]. split; [reflexivity|].
  split; [|split; [|exact I]];
    (eexists _, _; split; [reflexivity|]; split; [reflexivity|]; by repeat split).
Qed.

(** The line of [line_store]: one descent. *)
Lemma coordsIsNaN_represents_witness :
  Store.coordsIsNaN store_test_libraries 2 (Store.Ref 2) line_store =
  (Store.Return (coordsIsNaN (Arr [Arr [Num 1; Num 2]; Arr [Num 3; Num 4]])),
   line_store).
Proof.
  apply (coordsIsNaN_represents store_test_libraries).
  - exact represents_line_store.
  - cbn. lia.
Defined.

Lemma represents_numbers σ vs cs :
  forallb Store.is_Num cs = true ->
  Forall2 (Store.represents σ) vs cs ->
  exists xs, cs = List.map Num xs /\ vs = List.map Store.Number xs.
Proof.
  intros Hnum Hvs. induction Hvs as [|v c vs cs Hc _ IH]; [by exists []|].
  cbn in Hnum. apply andb_prop in Hnum as [Hc' Hcs].
  destruct (IH Hcs) as (xs & -> & ->).
  destruct c as [x|]; [|discriminate]. cbn in Hc. subst v.
  by exists (x :: xs).
Qed.

Lemma represents_map_numbers σ ys :
  Forall2 (Store.represents σ) (List.map Store.Number ys) (List.map Num ys).
Proof. induction ys; constructor; done. Qed.

(** Calling a projection on a stored position allocates the position it
    returns. *)
Lemma call_projection_position f g σ l xs :
  Store.agrees f g ->
  σ !! l = Some (Store.Array (List.map Store.Number xs)) ->
  exists l' σ',
    Store.call_projection f (Store.Ref l) σ = (Store.Return (Store.Ref l'), σ')
    /\ Store.unchanged σ σ' /\ σ !! l' = None
    /\ Store.represents σ' (Store.Ref l') (g (Arr (List.map Num xs))).
Proof.
  intros Hfg Hl. destruct (Hfg xs) as (ys & Hf & Hg).
  destruct (StoreFrame.alloc_fresh σ (Store.Array (f (List.map Store.Number xs))) σ)
    as [Hnone Hsub]; [done|].
  eexists _, _. split.
  { unfold Store.call_projection, Store.bind, Store.read, Store.alloc.
    rewrite Hl. reflexivity. }
  split; [exact Hsub|]. split; [exact Hnone|].
  rewrite Hg. apply represents_Arr. eexists _, _.
  split; [reflexivity|]. split; [by rewrite lookup_insert_eq|].
  rewrite Hf. apply represents_map_numbers.
Qed.

Section MapRange.
Variables (callback : Store.val -> Store.M Store.val) (g : Coords -> Coords).
Variables (σ0 : Store.store) (l : Store.loc) (vs : list Store.val) (cs : list Coords).
Hypothesis Hl : σ0 !! l = Some (Store.Array vs).
Hypothesis Hvs : Forall2 (Store.represents σ0) vs cs.
Hypothesis Hcallback :
  Forall (fun c => forall v σ,
            Store.represents σ v c ->
            exists l' σ',
              callback v σ = (Store.Return (Store.Ref l'), σ')
              /\ Store.unchanged σ σ' /\ σ !! l' = None
              /\ Store.represents σ' (Store.Ref l') (g c)) cs.

(** The loop of [Array.prototype.map] over a stored array of coordinates:
    it returns a new array of the callback's results. *)
Lemma map_range_represents count :
  forall from mapped mc σ,
    from + count = length vs ->
    Store.unchanged σ0 σ ->
    Forall2 (Store.represents σ) mapped mc ->
    exists l' σ',
      Store.map_range (Store.Ref l) from count callback mapped σ =
        (Store.Return (Store.Ref l'), σ')
      /\ Store.unchanged σ σ' /\ σ !! l' = None
      /\ Store.represents σ' (Store.Ref l') (Arr (mc ++ List.map g (drop from cs))).
Proof.
  pose proof (Forall2_length _ _ _ Hvs) as Hlen.
  induction count as [|count IH]; intros from mapped mc σ Hfrom Hσ Hmapped.
  - destruct (StoreFrame.alloc_fresh σ (Store.Array mapped) σ) as [Hnone Hsub]; [done|].
    eexists _, _. split; [reflexivity|]. split; [exact Hsub|]. split; [exact Hnone|].
    rewrite drop_ge by lia. cbn [List.map]. rewrite app_nil_r.
    apply represents_Arr. eexists _, _. split; [reflexivity|].
    split; [by rewrite lookup_insert_eq|].
    eapply Forall2_impl; [exact Hmapped|].
    intros v c. by apply represents_unchanged.
  - destruct (lookup_lt_is_Some_2 vs from) as [v Hv]; [lia|].
    destruct (lookup_lt_is_Some_2 cs from) as [c Hc]; [lia|].
    pose proof (Forall2_lookup_lr _ _ _ _ _ _ Hvs Hv Hc) as Hvc.
    pose proof (Forall_lookup_1 _ _ _ _ Hcallback Hc) as Hcall.
    destruct (Hcall v σ) as (l1 & σ1 & Hrun & Hsub1 & Hnone1 & Hrep1).
    { by eapply represents_unchanged. }
    destruct (IH (S from) (mapped ++ [Store.Ref l1]) (mc ++ [g c]) σ1)
      as (l' & σ' & Hloop & Hsub' & Hnone' & Hrep'); [lia | by etrans | |].
    { apply Forall2_app; [|by constructor].
      eapply Forall2_impl; [exact Hmapped|].
      intros v' c'. by apply represents_unchanged. }
    exists l', σ'. split.
    { cbn [Store.map_range]. unfold Store.bind at 1, Store.index.
      rewrite (lookup_weaken _ _ _ _ Hl Hσ), Hv. cbn [default from_option id].
      unfold Store.bind. rewrite Hrun. exact Hloop. }
    split; [by etrans|]. split; [by eapply lookup_weaken_None|].
    rewrite (drop_S _ _ _ Hc). cbn [List.map].
    by rewrite <- app_assoc in Hrep'.
Qed.
End MapRange.

(** [projectCoords] and [unprojectCoords] are one walk, with the
    projection or its inverse at the positions. *)
Section Walk.
Variables (f : list Store.val -> list Store.val) (g : Coords -> Coords).
Variables (walk : nat -> Store.val -> Store.M Store.val) (walk_value : Coords -> Coords).
Hypothesis Hfg : Store.agrees f g.
Hypothesis walk_S :
  forall fuel v σ,
    walk (S fuel) v σ =
    Store.bind (Store.index v 0)
      (fun c0 => match Store.typeof c0 with
                 | TObject => Store.array_map v (walk fuel)
                 | _ => Store.call_projection f v
                 end) σ.
Hypothesis walk_value_Arr :
  forall elements,
    walk_value (Arr elements) =
    match elements with
    | Arr _ :: _ => Arr (List.map walk_value elements)
    | _ => g (Arr elements)
    end.

Lemma walk_represents c :
  forall v fuel σ,
    Store.well_formed c = true ->
    Store.represents σ v c ->
    Store.depth c <= fuel ->
    exists l' σ',
      walk fuel v σ = (Store.Return (Store.Ref l'), σ')
      /\ Store.unchanged σ σ' /\ σ !! l' = None
      /\ Store.represents σ' (Store.Ref l') (walk_value c).
Proof.
  induction c as [x|elements IH] using Coords_induction;
    intros v fuel σ Hwf Hv Hfuel; [discriminate|].
  pose proof Hv as Hv'.
  apply represents_Arr in Hv' as (l & vs & -> & Hl & Hvs).
  destruct fuel as [|fuel]; [cbn in Hfuel; lia|].
  rewrite walk_S, walk_value_Arr.
  cbn [Store.well_formed] in Hwf. apply orb_prop in Hwf as [Hnum|Hwf].
  - (* a position *)
    destruct (represents_numbers _ _ _ Hnum Hvs) as (xs & -> & ->).
    destruct (call_projection_position f g σ l xs Hfg Hl)
      as (l' & σ' & Hrun & Hrest).
    exists l', σ'. split; [|by destruct xs].
    unfold Store.bind, Store.index. rewrite Hl.
    by destruct xs.
  - (* an array of arrays *)
    apply andb_prop in Hwf as [Hfirst Hwf].
    destruct Hvs as [|v0 c0 vs cs Hc0 Hcs]; [discriminate|].
    destruct c0 as [x|elements0]; [discriminate|].
    pose proof Hc0 as Hc0'.
    apply represents_Arr in Hc0' as (l0 & vs0 & -> & _).
    assert (Hall : Forall2 (Store.represents σ) (Store.Ref l0 :: vs)
                     (Arr elements0 :: cs)) by (by constructor).
    destruct (map_range_represents (walk fuel) walk_value σ l
                (Store.Ref l0 :: vs) (Arr elements0 :: cs) Hl Hall) with
      (count := length (Store.Ref l0 :: vs)) (from := 0)
      (mapped := @nil Store.val) (mc := @nil Coords) (σ := σ)
      as (l' & σ' & Hloop & Hrest);
      [ | reflexivity | done | constructor | ].
    + apply Forall_forall. intros c Hin v σ1 Hrep.
      rewrite Forall_forall in IH. apply IH; [exact Hin | | exact Hrep |].
      * rewrite forallb_forall in Hwf. apply Hwf.
        by apply list_elem_of_In.
      * cbn [Store.depth] in Hfuel.
        assert (Store.depth c <= list_max (List.map Store.depth (Arr elements0 :: cs))).
        { pose proof (proj1 (list_max_le (List.map Store.depth (Arr elements0 :: cs)) _)
                        (Nat.le_refl _)) as Hmax.
          rewrite List.Forall_forall in Hmax. apply Hmax.
          apply in_map. by apply list_elem_of_In. }
        lia.
    + exists l', σ'. split; [|exact Hrest].
      unfold Store.bind at 1, Store.index. rewrite Hl.
      cbn [lookup list_lookup default from_option id Store.typeof].
      unfold Store.array_map, Store.bind, Store.isArray, Store.length_of, Store.read.
      rewrite Hl. cbv beta iota. rewrite Hl. exact Hloop.
Qed.
End Walk.

(** X13.  On well-formed stored coordinates, [projectCoords] returns once
    its fuel reaches the nesting depth: it leaves every object as it is and
    returns a new array that holds [projectCoords] of the coordinates by
    value, whenever the two projections agree on positions. *)
Theorem projectCoords_represents ps pp σ v c fuel :
  Store.agrees (Store.forward ps) (forward pp) ->
  Store.well_formed c = true ->
  Store.represents σ v c ->
  Store.depth c <= fuel ->
  exists l' σ',
    Store.projectCoords fuel v ps σ = (Store.Return (Store.Ref l'), σ')
    /\ Store.unchanged σ σ' /\ σ !! l' = None
    /\ Store.represents σ' (Store.Ref l') (projectCoords c pp).
Proof.
  intros Hfg.
  apply (walk_represents (Store.forward ps) (forward pp)
           (fun fuel v => Store.projectCoords fuel v ps)
           (fun c => projectCoords c pp) Hfg).
  - reflexivity.
  - intros [|[x|elements] rest]; reflexivity.
Qed.

(** X14.  The same for [unprojectCoords] and the inverse projections. *)
Theorem unprojectCoords_represents ps pp σ v c fuel :
  Store.agrees (Store.invert ps) (invert pp) ->
  Store.well_formed c = true ->
  Store.represents σ v c ->
  Store.depth c <= fuel ->
  exists l' σ',
    Store.unprojectCoords fuel v ps σ = (Store.Return (Store.Ref l'), σ')
    /\ Store.unchanged σ σ' /\ σ !! l' = None
    /\ Store.represents σ' (Store.Ref l') (unprojectCoords c pp).
Proof.
  intros Hfg.
  apply (walk_represents (Store.invert ps) (invert pp)
           (fun fuel v => Store.unprojectCoords fuel v ps)
           (fun c => unprojectCoords c pp) Hfg).
  - reflexivity.
  - intros [|[x|elements] rest]; reflexivity.
Qed.

Lemma shift_projection_agrees_forward rotation k :
  Store.agrees (Store.forward (store_shift_projection rotation))
    (forward (shift_projection rotation k)).
Proof.
  intros [|x [|y [|z xs]]];
    [exists [nan; nan] | exists [nan; nan] | | exists [nan; nan]];
    [done | done | | done].
  by exists [PrimFloat.add x (fst rotation); PrimFloat.add y (snd rotation)].
Qed.

Lemma shift_projection_agrees_invert rotation k :
  Store.agrees (Store.invert (store_shift_projection rotation))
    (invert (shift_projection rotation k)).
Proof.
  intros [|x [|y [|z xs]]];
    [exists [nan; nan] | exists [nan; nan] | | exists [nan; nan]];
    [done | done | | done].
  by exists [PrimFloat.sub x (fst rotation); PrimFloat.sub y (snd rotation)].
Qed.

Lemma projectCoords_represents_witness :
  exists l' σ',
    Store.projectCoords 2 (Store.Ref 2)
      (store_shift_projection (1%float, 2%float)) line_store =
      (Store.Return (Store.Ref l'), σ')
    /\ Store.unchanged line_store σ' /\ line_store !! l' = None
    /\ Store.represents σ' (Store.Ref l')
         (projectCoords (Arr [Arr [Num 1; Num 2]; Arr [Num 3; Num 4]])
            (shift_projection (1%float, 2%float) 0)).
Proof.
  apply projectCoords_represents.
  - apply shift_projection_agrees_forward.
  - reflexivity.
  - exact represents_line_store.
  - cbn. lia.
Defined.

Lemma unprojectCoords_represents_witness :
  exists l' σ',
    Store.unprojectCoords 2 (Store.Ref 2)
      (store_shift_projection (1%float, 2%float)) line_store =
      (Store.Return (Store.Ref l'), σ')
    /\ Store.unchanged line_store σ' /\ line_store !! l' = None
    /\ Store.represents σ' (Store.Ref l')
         (unprojectCoords (Arr [Arr [Num 1; Num 2]; Arr [Num 3; Num 4]])
            (shift_projection (1%float, 2%float) 0)).
Proof.
  apply unprojectCoords_represents.
  - apply shift_projection_agrees_invert.
  - reflexivity.
  - exact represents_line_store.
  - cbn. lia.
Defined.
End StoreRefinement.

(** * Collections, validation and the radius, over the store

    What [buffer] does on a FeatureCollection and on a top-level
    GeometryCollection, what its validation throws and what it asks of
    [radius], stated over the store: there a Feature can have a [null]
    geometry, collections nest and the libraries can throw. *)

Module StoreCollections.
Import Store StoreFrame.
Local Open Scope store_scope.

(** *** [buffer] is [validate] followed by [dispatch] *)

Lemma bind_assoc {A B C} (m : M A) (k : A -> M B) (h : B -> M C) σ :
  bind (bind m k) h σ = bind m (fun a => bind (k a) h) σ.
Proof. unfold bind. by destruct (m σ) as [[a|e|] σ']. Qed.

Lemma bind_ext {A B} (m : M A) (k k' : A -> M B) σ :
  (forall a σ', k a σ' = k' a σ') -> bind m k σ = bind m k' σ.
Proof. intros H. unfold bind. destruct (m σ) as [[a|e|] σ']; [apply H|done|done]. Qed.

Lemma store_buffer_validate_dispatch L fuel geojson radius options σ :
  buffer L fuel geojson radius options σ =
  (p <- validate geojson radius options ;; dispatch L fuel geojson radius p) σ.
Proof.
  unfold buffer, validate.
  do 6 (rewrite bind_assoc; apply bind_ext; intros ? ?).
  destruct (negb (truthy geojson)); [reflexivity|].
  destruct (typeof _); try reflexivity.
  destruct (js_or _ (Number 8)); try reflexivity.
  do 2 (rewrite bind_assoc; apply bind_ext; intros ? ?).
  destruct (js_or _ (Number 5)); try reflexivity.
  destruct radius; try reflexivity;
    by destruct (PrimFloat.leb _ 0).
Qed.

(** *** Invariants of the store *)

Section Keeps.
Variable I : store -> Prop.

Lemma keeps_ret {A} (a : A) : keeps I (ret a).
Proof. intros σ H. exact H. Qed.

Lemma keeps_raise {A} e : keeps I (@raise A e).
Proof. intros σ H. exact H. Qed.

Lemma keeps_get v name : keeps I (get v name).
Proof.
  intros σ H. unfold get.
  destruct v as [| | | | |l|]; try exact H.
  destruct (σ !! l) as [[fields|elements]|]; exact H.
Qed.

Lemma keeps_index v i : keeps I (index v i).
Proof.
  intros σ H. unfold index.
  destruct v as [| | | | |l|]; try exact H.
  destruct (σ !! l) as [[fields|elements]|]; exact H.
Qed.

Lemma keeps_length_of v : keeps I (length_of v).
Proof.
  intros σ H. unfold length_of.
  destruct v as [| | | | |l|]; try exact H.
  destruct (σ !! l) as [[fields|elements]|]; exact H.
Qed.

Lemma keeps_bind {A B} (m : M A) (k : A -> M B) :
  keeps I m -> (forall a, keeps I (k a)) -> keeps I (bind m k).
Proof.
  intros Hm Hk σ H. specialize (Hm σ H). unfold bind.
  destruct (m σ) as [[a|e|] σ']; cbn in *; [by apply Hk | done | done].
Qed.

Lemma keeps_for_range from count body :
  (forall i, keeps I (body i)) -> keeps I (for_range from count body).
Proof.
  intros Hbody. revert from.
  induction count as [|count IH]; intros from; cbn [for_range].
  - apply keeps_ret.
  - apply keeps_bind; [apply Hbody | intros _; apply IH].
Qed.

Lemma keeps_for_elements array callback :
  (forall x, keeps I (callback x)) -> keeps I (for_elements array callback).
Proof.
  intros Hcb. unfold for_elements.
  apply keeps_bind; [apply keeps_length_of | intros n].
  apply keeps_for_range. intros i.
  apply keeps_bind; [apply keeps_index | exact Hcb].
Qed.

Lemma keeps_geomEach geojson callback :
  (forall x, keeps I (callback x)) -> keeps I (geomEach geojson callback).
Proof.
  intros Hcb. unfold geomEach.
  apply keeps_bind; [apply keeps_get | intros type].
  apply keeps_bind;
    [destruct (is_string _ "Feature"); [apply keeps_get | apply keeps_ret]|].
  intros geometryMaybeCollection.
  assert (Hgeneral : forall geometry,
            keeps I (type <- get geometry "type" ;;
                     if is_geometry_type type then callback geometry
                     else if is_string type "GeometryCollection" then
                       geometries <- get geometry "geometries" ;;
                       for_elements geometries callback
                     else raise (Error "Unknown Geometry Type"))).
  { intros geometry. apply keeps_bind; [apply keeps_get | intros t].
    destruct (is_geometry_type _); [apply Hcb|].
    destruct (is_string _ "GeometryCollection"); [|apply keeps_raise].
    apply keeps_bind; [apply keeps_get | intros geometries].
    by apply keeps_for_elements. }
  assert (Hvisit : forall geometry,
            keeps I (match geometry with
                     | Null => callback Null
                     | _ =>
                         type <- get geometry "type" ;;
                         if is_geometry_type type then callback geometry
                         else if is_string type "GeometryCollection" then
                           geometries <- get geometry "geometries" ;;
                           for_elements geometries callback
                         else raise (Error "Unknown Geometry Type")
                     end)).
  { intros []; first [apply Hcb | apply Hgeneral]. }
  destruct (truthy geometryMaybeCollection); [|apply Hvisit].
  apply keeps_bind; [apply keeps_get | intros t].
  destruct (is_string _ "GeometryCollection"); [|apply Hvisit].
  apply keeps_bind; [apply keeps_get | intros geometries].
  by apply keeps_for_elements.
Qed.
End Keeps.

(** What leaves every object as it is keeps an array an array; so does
    [push]. *)
Lemma keeps_holds_array_safe {A} (m : M A) a :
  (forall σ0, safe σ0 m) -> keeps (holds_array a) m.
Proof.
  intros Hm σ [elements Ha]. exists elements.
  eapply lookup_weaken; [exact Ha|]. by apply Hm.
Qed.

Lemma keeps_holds_array_push a results v :
  keeps (holds_array a) (push_if_truthy results v).
Proof.
  intros σ [elements Ha]. unfold push_if_truthy, push.
  destruct (truthy v); [|by exists elements].
  destruct results as [| | | | |l|]; try by exists elements.
  destruct (σ !! l) as [[fields|elements']|] eqn:Hl; try by exists elements.
  cbn. destruct (decide (l = a)) as [->|Hne].
  - eexists. apply lookup_insert_eq.
  - exists elements. by rewrite lookup_insert_ne.
Qed.

(** *** What [bufferFeature] returns *)

(** A loop that pushes to the [results] array at [a], and the
    FeatureCollection made of it. *)
Lemma loop_featureCollection_shape σ0 (loop : M unit) a σ :
  safe σ0 loop -> keeps (holds_array a) loop ->
  σ0 !! a = None -> unchanged σ0 σ -> holds_array a σ ->
  unchanged σ0 ((_ <- loop ;; helpers_featureCollection (Ref a)) σ).2
  /\ forall v,
       ((_ <- loop ;; helpers_featureCollection (Ref a)) σ).1 = Return v ->
       returned_shape σ0 v ((_ <- loop ;; helpers_featureCollection (Ref a)) σ).2.
Proof.
  intros Hsafe Hkeeps Hnone Hσ Harray.
  pose proof (Hsafe σ Hσ) as Hloop.
  destruct (Hkeeps σ Harray) as [elements Ha].
  unfold bind. destruct (loop σ) as [[[]|e|] σ'] eqn:Hrun; cbn in *;
    [|split; [exact Hloop | by intros ? [=]] ..].
  unfold helpers_featureCollection, alloc.
  destruct (alloc_fresh σ0
              (Obj {[ "type" := String "FeatureCollection"; "features" := Ref a ]})
              σ' Hloop) as [Hnone' Hsub'].
  split; [exact Hsub'|]. intros v [= <-]. right. cbn.
  eexists _, _. split; [reflexivity|]. split; [exact Hnone'|].
  split; [apply lookup_insert_eq|]. right. split; [reflexivity|].
  exists a, elements. split; [reflexivity|]. split; [exact Hnone|].
  rewrite lookup_insert_ne; [exact Ha|].
  intros Heq. assert (Hfresh : σ' !! fresh (dom σ') = None)
    by (apply not_elem_of_dom, is_fresh).
  rewrite Heq in Hfresh. congruence.
Qed.

Lemma triple_results_shape σ0 (loop : val -> M unit) :
  (forall results, fresh_ref σ0 results -> safe σ0 (loop results)) ->
  (forall a, keeps (holds_array a) (loop (Ref a))) ->
  triple σ0
    (results <- alloc (Array []) ;;
     _ <- loop results ;;
     helpers_featureCollection results)
    (returned_shape σ0).
Proof.
  intros Hsafe Hkeeps σ H.
  change ((results <- alloc (Array []) ;;
           _ <- loop results ;;
           helpers_featureCollection results) σ)
    with ((_ <- loop (Ref (fresh (dom σ))) ;;
           helpers_featureCollection (Ref (fresh (dom σ))))
            (<[fresh (dom σ) := Array []]> σ)).
  destruct (alloc_fresh σ0 (Array []) σ H) as [Hnone Hsub].
  apply loop_featureCollection_shape; try done.
  - by apply Hsafe.
  - eexists. apply lookup_insert_eq.
Qed.

Lemma triple_feature_shape σ0 geom properties :
  triple σ0 (helpers_feature geom properties) (returned_shape σ0).
Proof.
  unfold helpers_feature. apply StoreProperties.triple_bind.
  - destruct (truthy properties); [apply safe_ret | apply safe_alloc].
  - intros properties' σ H. unfold alloc.
    destruct (alloc_fresh σ0
                (Obj {[ "type" := String "Feature"; "properties" := properties';
                        "geometry" := geom ]}) σ H) as [Hnone Hsub].
    split; [exact Hsub|]. intros v [= <-]. right. cbn.
    eexists _, _. split; [reflexivity|]. split; [exact Hnone|].
    split; [apply lookup_insert_eq|]. by left.
Qed.

Lemma triple_bufferFeature_shape σ0 L radius units steps endCapStyle joinStyle
    mitreLimit fuel geojson :
  triple σ0
    (bufferFeature L radius units steps endCapStyle joinStyle mitreLimit fuel geojson)
    (returned_shape σ0).
Proof.
  destruct fuel as [|fuel]; cbn [bufferFeature];
    [apply StoreProperties.triple_out_of_fuel|].
  apply StoreProperties.triple_bind; [apply safe_get | intros properties0].
  apply StoreProperties.triple_bind;
    [destruct (truthy properties0); safe_step | intros properties].
  apply StoreProperties.triple_bind; [apply safe_get | intros type].
  apply StoreProperties.triple_bind;
    [destruct (is_string _ "Feature"); safe_step | intros geometry].
  apply StoreProperties.triple_bind; [apply safe_get | intros geometry_type].
  destruct (is_string _ "GeometryCollection").
  - apply (triple_results_shape σ0
             (fun results =>
                geomEach geojson (fun geometry =>
                  buffered <- bufferFeature L radius units steps endCapStyle
                                joinStyle mitreLimit fuel geometry ;;
                  if truthy buffered then push results buffered else ret tt))).
    + intros results Hresults. apply safe_geomEach. intros x.
      apply safe_bind; [apply safe_bufferFeature | intros buffered].
      by apply safe_push_if.
    + intros a. apply keeps_geomEach. intros x.
      apply keeps_bind.
      * apply keeps_holds_array_safe. intros σ1. apply safe_bufferFeature.
      * intros buffered. apply (keeps_holds_array_push a (Ref a) buffered).
  - apply StoreProperties.triple_bind; [apply safe_defineProjection | intros projection].
    apply StoreProperties.triple_bind; [apply safe_get | intros coordinates].
    apply StoreProperties.triple_bind;
      [apply safe_projectCoords | intros projected_coordinates].
    apply StoreProperties.triple_bind; [apply safe_alloc | intros projected].
    do 4 (apply StoreProperties.triple_bind; [apply safe_call | intros ?]).
    apply StoreProperties.triple_bind; [apply safe_alloc_geometry | intros buffered].
    apply StoreProperties.triple_bind; [apply safe_get | intros buffered_coordinates].
    apply StoreProperties.triple_bind; [apply safe_coordsIsNaN | intros [|]].
    + apply StoreProperties.triple_ret. intros σ _. by left.
    + apply StoreProperties.triple_bind; [apply safe_get | intros buffered_type].
      apply StoreProperties.triple_bind;
        [apply safe_unprojectCoords | intros unprojected].
      apply StoreProperties.triple_bind; [apply safe_alloc | intros result].
      apply triple_feature_shape.
Qed.

(** *** Pushing the features of a returned value *)

Lemma for_range_push a r elements :
  a <> r ->
  forall count from outs σ,
    σ !! a = Some (Array elements) ->
    σ !! r = Some (Array outs) ->
    from + count = length elements ->
    for_range from count
      (fun i => x <- index (Ref a) i ;; push_if_truthy (Ref r) x) σ =
    (Return tt, <[r := Array (outs ++ List.filter truthy (drop from elements))]> σ).
Proof.
  intros Hne. induction count as [|count IH]; intros from outs σ Ha Hr Hlen.
  - cbn [for_range]. rewrite drop_ge by lia. cbn [List.filter].
    rewrite app_nil_r, insert_id by done. reflexivity.
  - destruct (lookup_lt_is_Some_2 elements from) as [x Hx]; [lia|].
    cbn [for_range]. unfold bind at 1. unfold bind at 1, index. rewrite Ha, Hx.
    cbn [default from_option id]. unfold id.
    rewrite (drop_S _ _ _ Hx). cbn [List.filter].
    unfold push_if_truthy. destruct (truthy x) eqn:Htruthy.
    + unfold push. rewrite Hr.
      rewrite (IH (S from) (outs ++ [x]));
        [| by rewrite lookup_insert_ne | apply lookup_insert_eq | lia].
      by rewrite insert_insert_eq, <- app_assoc.
    + cbn. by apply IH; [| |lia].
Qed.

(** [meta.featureEach] on what [bufferFeature] returned, with the callback
    that pushes to [results]. *)
Lemma featureEach_push σ0 σ r outs v :
  is_Some (σ0 !! r) ->
  σ !! r = Some (Array outs) ->
  returned_shape σ0 v σ ->
  (if truthy v then featureEach v (push_if_truthy (Ref r)) else ret tt) σ =
  (Return tt, <[r := Array (outs ++ pushed σ v)]> σ).
Proof.
  intros [o Ho] Hr [->|(l & fields & -> & Hnone & Hl & Hshape)].
  - cbn. rewrite app_nil_r, insert_id by done. reflexivity.
  - cbn [truthy]. unfold pushed, features_of. cbn [truthy]. rewrite Hl.
    unfold featureEach, bind at 1, get. rewrite Hl.
    destruct Hshape as [Htype|(Htype & a & elements & Hfeatures & Hnone' & Ha)];
      rewrite Htype; cbn [default from_option id is_string String.eqb Ascii.eqb
                          Bool.eqb andb].
    + unfold push_if_truthy, push. cbn [truthy List.filter]. by rewrite Hr.
    + unfold bind at 1, get. rewrite Hl, Hfeatures.
      cbn [default from_option id]. rewrite Ha.
      unfold for_elements, bind at 1, length_of. rewrite Ha.
      rewrite (for_range_push a r elements) with (outs := outs);
        [by rewrite drop_0 | congruence | exact Ha | exact Hr | reflexivity].
Qed.

(** *** The loop over the members *)

Section Members.
Variables (step : val -> M val) (σ0 : store) (a r : loc) (members : list val).
Hypothesis Hstep : forall σ member, triple σ (step member) (returned_shape σ).
Hypothesis Ha : σ0 !! a = Some (Array members).
Hypothesis Hr : σ0 !! r = None.

(** The callback of [meta.featureEach] in the FeatureCollection branch. *)
Local Abbreviation callback :=
  (fun feature =>
     multiBuffered <- step feature ;;
     if truthy multiBuffered then
       featureEach multiBuffered (push_if_truthy (Ref r))
     else ret tt).

Lemma for_range_members count :
  forall from outs σ,
    from + count = length members ->
    unchanged σ0 σ ->
    σ !! r = Some (Array outs) ->
    let run :=
      for_range from count (fun i => x <- index (Ref a) i ;; callback x) σ in
    (exists outs',
       run.1 = Return tt /\ unchanged σ0 run.2
       /\ run.2 !! r = Some (Array (outs ++ outs'))
       /\ contributions step σ0 (drop from members) outs')
    \/ (exists done member rest outs' σf,
          drop from members = done ++ member :: rest
          /\ contributions step σ0 done outs'
          /\ unchanged σ0 σf
          /\ fails_as run.1 (step member σf).1).
Proof.
  induction count as [|count IH]; intros from outs σ Hlen Hσ Houts run.
  - left. exists []. subst run. cbn [for_range ret fst snd].
    rewrite app_nil_r, drop_ge by lia. repeat split; try done. constructor.
  - destruct (lookup_lt_is_Some_2 members from) as [member Hmember]; [lia|].
    rewrite (drop_S _ _ _ Hmember).
    assert (Hrun : run =
              bind (callback member)
                (fun _ => for_range (S from) count
                            (fun i => x <- index (Ref a) i ;; callback x)) σ).
    { subst run. cbn [for_range]. unfold bind at 1. unfold bind at 1, index.
      rewrite (lookup_weaken _ _ _ _ Ha Hσ), Hmember. reflexivity. }
    clearbody run.
    destruct (Hstep σ member σ) as [Hsub Hshape]; [reflexivity|].
    destruct (step member σ) as [[v|e|] σ'] eqn:Hv; cbn [fst snd] in *.
    + specialize (Hshape v eq_refl).
      assert (Houts' : σ' !! r = Some (Array outs))
        by (by eapply lookup_weaken).
      pose proof (featureEach_push σ σ' r outs v (mk_is_Some _ _ Houts) Houts' Hshape)
        as Hpush.
      assert (Hnext : unchanged σ0 (<[r := Array (outs ++ pushed σ' v)]> σ')).
      { apply insert_subseteq_r; [exact Hr|]. by etrans. }
      assert (Hrun' : run =
                for_range (S from) count
                  (fun i => x <- index (Ref a) i ;; callback x)
                  (<[r := Array (outs ++ pushed σ' v)]> σ')).
      { rewrite Hrun. unfold bind at 1. unfold bind at 1. by rewrite Hv, Hpush. }
      rewrite Hrun'. clear Hrun Hrun'.
      specialize (IH (S from) (outs ++ pushed σ' v)
                    (<[r := Array (outs ++ pushed σ' v)]> σ')).
      destruct IH as [(outs' & Hret & Hsub' & Hr' & Hrest)
                     |(done & f & rest & outs' & σf & Hdrop & Hdone & Hσf & Hfail)];
        [lia | exact Hnext | apply lookup_insert_eq | |].
      * left. exists (pushed σ' v ++ outs').
        split; [exact Hret|]. split; [exact Hsub'|].
        split; [by rewrite app_assoc|].
        exact (contributions_cons step σ0 member _ σ v σ' outs' Hσ Hv Hrest).
      * right. exists (member :: done), f, rest, (pushed σ' v ++ outs'), σf.
        split; [by rewrite Hdrop|].
        split; [exact (contributions_cons step σ0 member _ σ v σ' outs' Hσ Hv Hdone)|].
        split; [exact Hσf | exact Hfail].
    + right. exists [], member, (drop (S from) members), [], σ.
      split; [reflexivity|]. split; [constructor|]. split; [exact Hσ|].
      rewrite Hrun. unfold bind at 1. unfold bind at 1. by rewrite Hv.
    + right. exists [], member, (drop (S from) members), [], σ.
      split; [reflexivity|]. split; [constructor|]. split; [exact Hσ|].
      rewrite Hrun. unfold bind at 1. unfold bind at 1. by rewrite Hv.
Qed.
End Members.

(** *** The FeatureCollection branch of [buffer] *)

Lemma safe_validate σ0 geojson radius options :
  safe σ0 (validate geojson radius options).
Proof.
  unfold validate.
  apply safe_bind; [destruct (truthy options); safe_step | intros options'].
  do 5 (apply safe_bind; [apply safe_get | intros ?]).
  destruct (negb (truthy geojson)); [apply safe_raise|].
  destruct (typeof options'); try apply safe_raise.
  destruct (js_or _ (Number 8)); try apply safe_raise.
  apply safe_bind; [|intros endCapStyle].
  { unfold switch_endCapStyle. repeat (destruct (is_string _ _); [apply safe_ret|]).
    apply safe_raise. }
  apply safe_bind; [|intros joinStyle].
  { unfold switch_joinStyle. repeat (destruct (is_string _ _); [apply safe_ret|]).
    apply safe_raise. }
  destruct (js_or _ (Number 5)); try apply safe_raise.
  destruct radius; try apply safe_raise;
    (destruct (PrimFloat.leb _ 0); [apply safe_raise | apply safe_ret]).
Qed.

(** On a FeatureCollection, [dispatch] is the loop over the elements of
    [features] followed by [helpers.featureCollection(results)]. *)
Lemma store_dispatch_FeatureCollection L fuel radius p σ g fields a members :
  σ !! g = Some (Obj fields) ->
  fields !! "type" = Some (String "FeatureCollection") ->
  fields !! "features" = Some (Ref a) ->
  σ !! a = Some (Array members) ->
  dispatch L fuel (Ref g) radius p σ =
  (_ <- for_range 0 (length members)
          (fun i =>
             x <- index (Ref a) i ;;
             multiBuffered <- bufferFeature_with L radius p fuel x ;;
             if truthy multiBuffered then
               featureEach multiBuffered (push_if_truthy (Ref (fresh (dom σ))))
             else ret tt) ;;
   helpers_featureCollection (Ref (fresh (dom σ))))
    (<[fresh (dom σ) := Array []]> σ).
Proof.
  intros Hg Htype Hfeatures Ha.
  assert (Hfresh : σ !! fresh (dom σ) = None) by (apply not_elem_of_dom, is_fresh).
  assert (Hg' : <[fresh (dom σ) := Array []]> σ !! g = Some (Obj fields)).
  { rewrite lookup_insert_ne; [exact Hg | congruence]. }
  assert (Ha' : <[fresh (dom σ) := Array []]> σ !! a = Some (Array members)).
  { rewrite lookup_insert_ne; [exact Ha | congruence]. }
  unfold dispatch. unfold bind at 1, alloc. unfold bind at 1, get.
  rewrite Hg', Htype.
  cbn [default from_option id is_string String.eqb Ascii.eqb Bool.eqb andb].
  unfold featureEach. rewrite bind_assoc. unfold bind at 1, get.
  rewrite Hg', Htype.
  cbn [default from_option id is_string String.eqb Ascii.eqb Bool.eqb andb].
  rewrite bind_assoc. unfold bind at 1, get. rewrite Hg', Hfeatures.
  cbn [default from_option id].
  unfold for_elements. rewrite bind_assoc. unfold bind at 1, length_of.
  rewrite Ha'. reflexivity.
Qed.

(** C1 (amended).  On a FeatureCollection whose call passes validation,
    [buffer] buffers the member Features in input order, each in a store
    that holds the objects it was given as they were.  When every member's
    buffering returns, the call returns a new FeatureCollection over a new
    array that lists, member after member, what is pushed for each: nothing
    for a member whose buffering returns [undefined], the Feature returned,
    or the features of the FeatureCollection returned.  Otherwise the call
    ends as the buffering of the first member that does not return: with the
    exception it throws. *)
Theorem buffer_FeatureCollection_members L fuel radius options σ g fields a
    members p σ1 :
  σ !! g = Some (Obj fields) ->
  fields !! "type" = Some (String "FeatureCollection") ->
  fields !! "features" = Some (Ref a) ->
  σ !! a = Some (Array members) ->
  validate (Ref g) radius options σ = (Return p, σ1) ->
  let step := bufferFeature_with L radius p fuel in
  let run := buffer L fuel (Ref g) radius options σ in
  (exists l r outs,
     run.1 = Return (Ref l) /\ σ !! l = None
     /\ run.2 !! l =
        Some (Obj {[ "type" := String "FeatureCollection"; "features" := Ref r ]})
     /\ σ !! r = None /\ run.2 !! r = Some (Array outs)
     /\ contributions step σ members outs)
  \/ (exists done member rest outs σf,
        members = done ++ member :: rest
        /\ contributions step σ done outs
        /\ unchanged σ σf
        /\ fails_as run.1 (step member σf).1).
Proof.
  intros Hg Htype Hfeatures Ha Hvalidate step run.
  assert (Hσ1 : unchanged σ σ1).
  { pose proof (safe_validate σ (Ref g) radius options σ) as H.
    rewrite Hvalidate in H. by apply H. }
  assert (Hrun : run = dispatch L fuel (Ref g) radius p σ1).
  { subst run. rewrite store_buffer_validate_dispatch. unfold bind.
    by rewrite Hvalidate. }
  clearbody run. subst run.
  rewrite (store_dispatch_FeatureCollection L fuel radius p σ1 g fields a members);
    [|by eapply lookup_weaken|done|done|by eapply lookup_weaken].
  destruct (alloc_fresh σ (Array []) σ1 Hσ1) as [Hr Hσ2].
  set (r := fresh (dom σ1)) in *. set (σ2 := <[r := Array []]> σ1) in *.
  destruct (for_range_members step σ a r members
              (fun σ' member =>
                 triple_bufferFeature_shape σ' L radius (p_units p) (p_steps p)
                   (p_endCapStyle p) (p_joinStyle p) (p_mitreLimit p) fuel member)
              Ha Hr (length members) 0 [] σ2)
    as [(outs & Hret & Hsub & Hlookup & Hcontributions)
       |(done & member & rest & outs & σf & Hdrop & Hdone & Hσf & Hfail)];
    [reflexivity | exact Hσ2 | apply lookup_insert_eq | |].
  - left. unfold bind.
    destruct (for_range _ _ _ σ2) as [[[]|e|] σ3]; cbn [fst snd] in *;
      try discriminate.
    destruct (alloc_fresh σ
                (Obj {[ "type" := String "FeatureCollection"; "features" := Ref r ]})
                σ3 Hsub) as [Hl Hσ4].
    exists (fresh (dom σ3)), r, outs. cbn.
    split; [reflexivity|]. split; [exact Hl|].
    split; [apply lookup_insert_eq|]. split; [exact Hr|].
    split; [|by rewrite drop_0 in Hcontributions].
    rewrite lookup_insert_ne; [exact Hlookup|].
    intros Heq. assert (Hfresh : σ3 !! fresh (dom σ3) = None)
      by (apply not_elem_of_dom, is_fresh).
    rewrite Heq in Hfresh. cbn in Hlookup. congruence.
  - right. exists done, member, rest, outs, σf. rewrite drop_0 in Hdrop.
    split; [exact Hdrop|]. split; [exact Hdone|]. split; [exact Hσf|].
    unfold bind.
    destruct (for_range _ _ _ σ2) as [[[]|e|] σ3]; cbn [fst snd] in *;
      [by destruct (step member σf).1 | exact Hfail | exact Hfail].
Qed.

(** The FeatureCollection of [test_store], with the options object at
    location 6. *)
Lemma buffer_FeatureCollection_members_witness :
  let step :=
    bufferFeature_with store_test_libraries (Number 1)
      {| p_units := String "kilometers"; p_steps := 4; p_endCapStyle := 1;
         p_joinStyle := 1; p_mitreLimit := 5 |} 5 in
  let run := buffer store_test_libraries 5 (Ref 5) (Number 1) (Ref 6) test_store in
  (exists l r outs,
     run.1 = Return (Ref l) /\ test_store !! l = None
     /\ run.2 !! l =
        Some (Obj {[ "type" := String "FeatureCollection"; "features" := Ref r ]})
     /\ test_store !! r = None /\ run.2 !! r = Some (Array outs)
     /\ contributions step test_store [Ref 3] outs)
  \/ (exists done member rest outs σf,
        [Ref 3] = done ++ member :: rest
        /\ contributions step test_store done outs
        /\ unchanged test_store σf
        /\ fails_as run.1 (step member σf).1).
Proof.
  apply (buffer_FeatureCollection_members store_test_libraries 5 (Number 1) (Ref 6)
           test_store 5
           {[ "type" := String "FeatureCollection"; "features" := Ref 4 ]}
           4 [Ref 3]
           {| p_units := String "kilometers"; p_steps := 4; p_endCapStyle := 1;
              p_joinStyle := 1; p_mitreLimit := 5 |}
           test_store);
    [reflexivity | reflexivity | reflexivity | reflexivity
    | vm_compute; reflexivity].
Defined.

(** C1 as stated fails: a FeatureCollection that holds a Feature whose
    geometry is [null] is an error, the TypeError of reading
    [geometry.type]. *)
Lemma FeatureCollection_null_geometry_throws :
  (buffer store_test_libraries 5 (Ref 2) (Number 1) Undefined
     null_geometry_store).1 = Raise TypeError.
Proof. vm_compute. reflexivity. Qed.


(** *** Validation, over the store *)

Lemma bind_outcome {A B} (Q : outcome B -> Prop) (m : M A) (k : A -> M B) σ :
  (forall a σ', m σ = (Return a, σ') -> Q (k a σ').1) ->
  (forall e, (m σ).1 = Raise e -> Q (Raise e)) ->
  ((m σ).1 = OutOfFuel -> Q OutOfFuel) ->
  Q (bind m k σ).1.
Proof.
  intros Hret Hraise Hfuel. unfold bind.
  destruct (m σ) as [[a|e|] σ']; cbn in *; [by apply Hret | by apply Hraise | by apply Hfuel].
Qed.

Lemma get_truthy v name σ :
  truthy v = true -> exists x, get v name σ = (Return x, σ).
Proof.
  intros Hv. unfold get. destruct v as [| | | | |l|]; try discriminate;
    try (by eexists).
  destruct (σ !! l) as [[fields|elements]|]; by eexists.
Qed.

(** [validate] ends in one of two ways: it returns, and then [radius] is
    not [undefined], or it throws one of the eight errors of lines 51-84. *)
Lemma validate_outcome (Q : outcome Parameters -> Prop) geojson radius options σ :
  (forall message, message ∈ validation_messages -> Q (Raise (Error message))) ->
  (forall p, radius <> Undefined -> Q (Return p)) ->
  Q (validate geojson radius options σ).1.
Proof.
  intros Hraise Hreturn. unfold validate.
  apply bind_outcome.
  2:{ intros e. by destruct (truthy options). }
  2:{ by destruct (truthy options). }
  intros options' σ1 Hoptions.
  assert (Htruthy : truthy options' = true).
  { destruct (truthy options) eqn:Ho; unfold ret, alloc in Hoptions;
      by simplify_eq. }
  clear Hoptions.
  do 5 (apply bind_outcome;
        [intros ? ? _
        |intros e He;
         match type of He with
         | (get ?v ?n ?s).1 = _ =>
             destruct (get_truthy v n s Htruthy) as [? Hget];
             rewrite Hget in He; discriminate
         end
        |intros He;
         match type of He with
         | (get ?v ?n ?s).1 = _ =>
             destruct (get_truthy v n s Htruthy) as [? Hget];
             rewrite Hget in He; discriminate
         end]).
  destruct (negb (truthy geojson)).
  { apply Hraise. unfold validation_messages. set_solver. }
  destruct (typeof options');
    try (apply Hraise; unfold validation_messages; set_solver).
  destruct (js_or _ (Number 8));
    try (apply Hraise; unfold validation_messages; set_solver).
  apply bind_outcome.
  2:{ intros e. unfold switch_endCapStyle.
      repeat (destruct (is_string _ _); [discriminate|]).
      intros [= <-]. apply Hraise. unfold validation_messages. set_solver. }
  2:{ unfold switch_endCapStyle. by repeat (destruct (is_string _ _); [discriminate|]). }
  intros endCapStyle ? _.
  apply bind_outcome.
  2:{ intros e. unfold switch_joinStyle.
      repeat (destruct (is_string _ _); [discriminate|]).
      intros [= <-]. apply Hraise. unfold validation_messages. set_solver. }
  2:{ unfold switch_joinStyle. by repeat (destruct (is_string _ _); [discriminate|]). }
  intros joinStyle ? _.
  destruct (js_or _ (Number 5));
    try (apply Hraise; unfold validation_messages; set_solver).
  destruct radius;
    try (apply Hraise; unfold validation_messages; set_solver);
    (destruct (PrimFloat.leb _ 0);
     [apply Hraise; unfold validation_messages; set_solver
     |by apply Hreturn]).
Qed.



(** *** What [buffer] returns *)


Lemma bind_alloc {B} o (k : val -> M B) σ :
  bind (alloc o) k σ = k (Ref (fresh (dom σ))) (<[fresh (dom σ) := o]> σ).
Proof. reflexivity. Qed.





(** *** The GeometryCollection branch of [buffer] *)

(** On a GeometryCollection, [dispatch] is the loop of [meta.geomEach] over
    the elements of [geometries], with the callback that buffers
    [helpers.feature], followed by [helpers.featureCollection(results)]. *)
Lemma store_dispatch_GeometryCollection L fuel radius p σ g fields a geometries :
  σ !! g = Some (Obj fields) ->
  fields !! "type" = Some (String "GeometryCollection") ->
  fields !! "geometries" = Some (Ref a) ->
  σ !! a = Some (Array geometries) ->
  dispatch L fuel (Ref g) radius p σ =
  (_ <- for_range 0 (length geometries)
          (fun i =>
             x <- index (Ref a) i ;;
             let callback (geometry : val) : M unit :=
               buffered <- bufferFeature_with L radius p fuel HelpersFeature ;;
               push_if_truthy (Ref (fresh (dom σ))) buffered in
             match x with
             | Null => callback Null
             | _ =>
                 type <- get x "type" ;;
                 if is_geometry_type type then callback x
                 else if is_string type "GeometryCollection" then
                   geometries <- get x "geometries" ;;
                   for_elements geometries callback
                 else raise (Error "Unknown Geometry Type")
             end) ;;
   helpers_featureCollection (Ref (fresh (dom σ))))
    (<[fresh (dom σ) := Array []]> σ).
Proof.
  intros Hg Htype Hgeometries Ha.
  assert (Hfresh : σ !! fresh (dom σ) = None) by (apply not_elem_of_dom, is_fresh).
  assert (Hg' : <[fresh (dom σ) := Array []]> σ !! g = Some (Obj fields)).
  { rewrite lookup_insert_ne; [exact Hg | congruence]. }
  assert (Ha' : <[fresh (dom σ) := Array []]> σ !! a = Some (Array geometries)).
  { rewrite lookup_insert_ne; [exact Ha | congruence]. }
  unfold dispatch. rewrite bind_alloc. unfold bind at 1, get.
  rewrite Hg', Htype.
  cbn [default from_option id is_string String.eqb Ascii.eqb Bool.eqb andb].
  unfold geomEach. rewrite bind_assoc. unfold bind at 1, get.
  rewrite Hg', Htype.
  cbn [default from_option id is_string String.eqb Ascii.eqb Bool.eqb andb].
  rewrite bind_assoc. unfold bind at 1, ret. cbn [truthy].
  rewrite bind_assoc. unfold bind at 1, get. rewrite Hg', Htype.
  cbn [default from_option id is_string String.eqb Ascii.eqb Bool.eqb andb].
  rewrite bind_assoc. unfold bind at 1, get. rewrite Hg', Hgeometries.
  cbn [default from_option id].
  unfold for_elements. rewrite bind_assoc. unfold bind at 1, length_of.
  rewrite Ha'. reflexivity.
Qed.


(** With a first member that is a geometry with coordinates, the callback
    runs and throws: what [center] throws on [helpers.feature], and the
    TypeError of [projectCoords] when [center] returns. *)
Lemma store_dispatch_GeometryCollection_throws L fuel radius p σ g fields a m
    rest mfields :
  σ !! g = Some (Obj fields) ->
  fields !! "type" = Some (String "GeometryCollection") ->
  fields !! "geometries" = Some (Ref a) ->
  σ !! a = Some (Array (Ref m :: rest)) ->
  σ !! m = Some (Obj mfields) ->
  is_geometry_type (default Undefined (mfields !! "type")) = true ->
  exists σ',
    unchanged σ σ'
    /\ (dispatch L (S (S fuel)) (Ref g) radius p σ).1 =
       Raise (match center L σ' HelpersFeature with
              | Ok _ => TypeError
              | Throw e => e
              end).
Proof.
  intros Hg Htype Hgeometries Ha Hm Hmtype.
  assert (Hfresh : σ !! fresh (dom σ) = None) by (apply not_elem_of_dom, is_fresh).
  set (σ2 := <[fresh (dom σ) := Array []]> σ).
  assert (Hσ2 : unchanged σ σ2) by (by apply insert_subseteq).
  exists (<[fresh (dom σ2) := Obj ∅]> σ2). split.
  { etrans; [exact Hσ2|]. apply insert_subseteq.
    apply not_elem_of_dom, is_fresh. }
  rewrite (store_dispatch_GeometryCollection L (S (S fuel)) radius p σ g fields a
             (Ref m :: rest)) by done.
  fold σ2. cbn [length for_range].
  rewrite !bind_assoc. unfold bind at 1, index.
  rewrite (lookup_weaken _ _ _ _ Ha Hσ2).
  cbn [lookup list_lookup default from_option id]. cbv zeta.
  rewrite bind_assoc. unfold bind at 1, get.
  rewrite (lookup_weaken _ _ _ _ Hm Hσ2), Hmtype.
  rewrite bind_assoc. unfold bufferFeature_with.
  pose proof (bufferFeature_HelpersFeature L radius (p_units p) (p_steps p)
                (p_endCapStyle p) (p_joinStyle p) (p_mitreLimit p) fuel σ2) as Hthrow.
  unfold bind at 1.
  destruct (bufferFeature L radius (p_units p) (p_steps p) (p_endCapStyle p)
              (p_joinStyle p) (p_mitreLimit p) (S (S fuel)) HelpersFeature σ2)
    as [o σ3].
  cbn [fst] in Hthrow. by subst o.
Qed.

(** A new FeatureCollection without members. *)
Local Abbreviation returns_empty σ run :=
  (exists l r,
     run.1 = Return (Ref l) /\ σ !! l = None
     /\ run.2 !! l =
        Some (Obj {[ "type" := String "FeatureCollection"; "features" := Ref r ]})
     /\ σ !! r = None /\ run.2 !! r = Some (Array [])).

Lemma featureCollection_of_results σ0 σ :
  unchanged σ0 σ ->
  returns_empty σ0
    (helpers_featureCollection (Ref (fresh (dom σ))) (<[fresh (dom σ) := Array []]> σ)).
Proof.
  intros Hσ.
  destruct (alloc_fresh σ0 (Array []) σ Hσ) as [Hr Hσ2].
  set (r := fresh (dom σ)) in *. set (σ2 := <[r := Array []]> σ) in *.
  destruct (alloc_fresh σ0
              (Obj {[ "type" := String "FeatureCollection"; "features" := Ref r ]})
              σ2 Hσ2) as [Hl Hσ3].
  exists (fresh (dom σ2)), r. cbn.
  split; [reflexivity|]. split; [exact Hl|].
  split; [apply lookup_insert_eq|]. split; [exact Hr|].
  rewrite lookup_insert_ne; [apply lookup_insert_eq|].
  intros Heq. assert (Hfresh : σ2 !! fresh (dom σ2) = None)
    by (apply not_elem_of_dom, is_fresh).
  rewrite Heq in Hfresh. unfold σ2 in Hfresh. by rewrite lookup_insert_eq in Hfresh.
Qed.

(** X8.  On a call that passes validation, a FeatureCollection without
    features and a top-level GeometryCollection without geometries both
    come back as a new FeatureCollection without members.  A top-level
    GeometryCollection whose first member is a geometry with coordinates
    throws, whatever the radius: what [center] throws on [helpers.feature],
    and a TypeError when [center] returns. *)
Theorem buffer_collection_edges L fuel radius options σ g fields a p σ1 :
  σ !! g = Some (Obj fields) ->
  validate (Ref g) radius options σ = (Return p, σ1) ->
  let run := buffer L (S (S fuel)) (Ref g) radius options σ in
  (fields !! "type" = Some (String "FeatureCollection") ->
   fields !! "features" = Some (Ref a) -> σ !! a = Some (Array []) ->
   returns_empty σ run)
  /\ (fields !! "type" = Some (String "GeometryCollection") ->
      fields !! "geometries" = Some (Ref a) -> σ !! a = Some (Array []) ->
      returns_empty σ run)
  /\ (forall m rest mfields,
        fields !! "type" = Some (String "GeometryCollection") ->
        fields !! "geometries" = Some (Ref a) ->
        σ !! a = Some (Array (Ref m :: rest)) ->
        σ !! m = Some (Obj mfields) ->
        is_geometry_type (default Undefined (mfields !! "type")) = true ->
        exists σ',
          unchanged σ σ'
          /\ run.1 = Raise (match center L σ' HelpersFeature with
                            | Ok _ => TypeError
                            | Throw e => e
                            end)).
Proof.
  intros Hg Hvalidate run.
  assert (Hσ1 : unchanged σ σ1).
  { pose proof (safe_validate σ (Ref g) radius options σ) as H.
    rewrite Hvalidate in H. by apply H. }
  assert (Hrun : run = dispatch L (S (S fuel)) (Ref g) radius p σ1).
  { subst run. rewrite store_buffer_validate_dispatch. unfold bind.
    by rewrite Hvalidate. }
  clearbody run. subst run.
  split; [|split].
  - intros Htype Hfeatures Ha.
    rewrite (store_dispatch_FeatureCollection L (S (S fuel)) radius p σ1 g fields a []);
      [|by eapply lookup_weaken|done|done|by eapply lookup_weaken].
    by apply featureCollection_of_results.
  - intros Htype Hgeometries Ha.
    rewrite (store_dispatch_GeometryCollection L (S (S fuel)) radius p σ1 g fields a []);
      [|by eapply lookup_weaken|done|done|by eapply lookup_weaken].
    by apply featureCollection_of_results.
  - intros m rest mfields Htype Hgeometries Ha Hm Hmtype.
    destruct (store_dispatch_GeometryCollection_throws L fuel radius p σ1 g fields a m
                rest mfields) as (σ' & Hσ' & Hthrow);
      try done; try (by eapply lookup_weaken).
    exists σ'. split; [by etrans | exact Hthrow].
Qed.

(** The GeometryCollection of [test_store]. *)
Lemma buffer_collection_edges_witness :
  exists σ',
    unchanged test_store σ'
    /\ (buffer store_test_libraries 5 (Ref 8) (Number 1) (Ref 6) test_store).1 =
       Raise (match center store_test_libraries σ' HelpersFeature with
              | Ok _ => TypeError
              | Throw e => e
              end).
Proof.
  destruct (buffer_collection_edges store_test_libraries 3 (Number 1) (Ref 6)
              test_store 8
              {[ "type" := String "GeometryCollection"; "geometries" := Ref 7 ]}
              7
              {| p_units := String "kilometers"; p_steps := 4; p_endCapStyle := 1;
                 p_joinStyle := 1; p_mitreLimit := 5 |}
              test_store)
    as (_ & _ & Hthrow); [reflexivity | vm_compute; reflexivity|].
  apply (Hthrow 1 []
           {[ "type" := String "Point"; "coordinates" := Ref 0 ]});
    reflexivity.
Defined.

(** *** A zero radius *)



(** *** The errors of validation *)

(** X4.  An exception thrown by the validation of lines 41-84 is one of
    its eight errors; [buffer] throws it whatever the libraries are, and
    it is the same for every GeoJSON given: [radius] and [options] alone
    decide it. *)
Theorem buffer_validation_errors L fuel geojson radius options σ e :
  (validate geojson radius options σ).1 = Raise e ->
  (exists message, e = Error message /\ message ∈ validation_messages)
  /\ (buffer L fuel geojson radius options σ).1 = Raise e
  /\ (forall geojson',
        truthy geojson = true -> truthy geojson' = true ->
        (validate geojson' radius options σ).1 = Raise e).
Proof.
  intros He. split; [|split].
  - pose proof (validate_outcome
                  (fun o => forall e, o = Raise e ->
                     exists message, e = Error message /\ message ∈ validation_messages)
                  geojson radius options σ) as H.
    apply H; [|done|exact He].
    intros message Hmessage e' [= <-]. by exists message.
  - rewrite store_buffer_validate_dispatch. unfold bind.
    destruct (validate geojson radius options σ) as [o σ1]. cbn in He. by subst o.
  - intros geojson' Hg Hg'. rewrite <- He. unfold validate. by rewrite Hg, Hg'.
Qed.

Lemma buffer_validation_errors_witness :
  (exists message,
     Error "radius is required" = Error message /\ message ∈ validation_messages)
  /\ (buffer store_test_libraries 5 (Ref 1) Undefined Undefined test_store).1 =
     Raise (Error "radius is required")
  /\ (forall geojson',
        truthy (Ref 1) = true -> truthy geojson' = true ->
        (validate geojson' Undefined Undefined test_store).1 =
        Raise (Error "radius is required")).
Proof.
  apply (buffer_validation_errors store_test_libraries 5 (Ref 1) Undefined Undefined
           test_store (Error "radius is required")).
  vm_compute. reflexivity.
Defined.
End StoreCollections.
